(** * word_to_markdown.py: a shallow embedding of the batch converter

    The script scans a directory for [.docx] files, runs [pandoc] once per
    file and reports how many conversions succeeded.  Everything it does
    is an effect on the outside world, so the embedding threads an explicit
    [World] (working directory, file-system tree, the log of system-level
    events and the console) through a small state-and-exception monad.
    The external converter is a parameter of the development: every
    theorem holds for every behaviour of the subprocess.

    Python values are modelled as follows:
    - [str] is a list of Unicode code points, so that [str.strip] and
      [str.split] see exactly the white space Python sees;
    - [int] counters and sizes are [N], process return codes are [Z];
    - exceptions are values carrying their class, and [except] clauses
      select by [isinstance] along the class hierarchy;
    - [pathlib.Path] is the POSIX flavour: an anchor flag and the parts;
    - the file system is a tree without symbolic links or permissions,
      so that testing or reading the status of a path never fails for
      lack of access;
    - [print] appends a line to the console and cannot fail;
    - the command line is taken as parsed: [main] starts from the
      [Namespace] that [parse_args] returns.

    A second embedding, [Faulty], drops the assumptions on library calls:
    there the environment may make any test of a path, any reading of a
    status, any [absolute()] and any [print] raise.  It is the one used
    where a property is about what can be raised and where. *)

From Stdlib Require Import String Ascii List Bool Arith NArith ZArith Lia.
Import ListNotations.
Local Open Scope list_scope.

(** ** Python [str] *)

Module Str.

Definition str := list N.

(** UTF-8 decoding of a source literal into code points.  Ill-formed
    input is decoded byte by byte; no literal of the script is ill-formed. *)
Fixpoint bytes_of (s : string) : list N :=
  match s with
  | EmptyString => []
  | String a s' => N_of_ascii a :: bytes_of s'
  end.

Definition cont (b : N) : N := N.land b 63.

Fixpoint decode (bs : list N) : str :=
  match bs with
  | [] => []
  | b0 :: r0 =>
      if (b0 <? 192)%N then b0 :: decode r0
      else match r0 with
      | [] => [b0]
      | b1 :: r1 =>
          if (b0 <? 224)%N then (N.land b0 31 * 64 + cont b1)%N :: decode r1
          else match r1 with
          | [] => [b0; b1]
          | b2 :: r2 =>
              if (b0 <? 240)%N
              then (N.land b0 15 * 4096 + cont b1 * 64 + cont b2)%N :: decode r2
              else match r2 with
              | [] => [b0; b1; b2]
              | b3 :: r3 =>
                  (N.land b0 7 * 262144 + cont b1 * 4096
                   + cont b2 * 64 + cont b3)%N :: decode r3
              end
          end
      end
  end.

Definition u (s : string) : str := decode (bytes_of s).

Definition eqb (a b : str) : bool :=
  if list_eq_dec N.eq_dec a b then true else false.

(** [str.isspace] on one character: the code points CPython's
    [_PyUnicode_IsWhitespace] accepts. *)
Definition isspace (c : N) : bool :=
  ((9 <=? c) && (c <=? 13) || (28 <=? c) && (c <=? 32)
   || (c =? 133) || (c =? 160) || (c =? 5760)
   || (8192 <=? c) && (c <=? 8202)
   || (c =? 8232) || (c =? 8233) || (c =? 8239) || (c =? 8287)
   || (c =? 12288))%N.

Fixpoint lstrip (s : str) : str :=
  match s with
  | [] => []
  | c :: s' => if isspace c then lstrip s' else s
  end.

Definition rstrip (s : str) : str := rev (lstrip (rev s)).

(** [s.strip()] *)
Definition strip (s : str) : str := rstrip (lstrip s).

(** [s.split()]: maximal runs of characters that are not white space. *)
Fixpoint split_aux (cur : str) (s : str) : list str :=
  match s with
  | [] => match cur with [] => [] | _ => [rev cur] end
  | c :: s' =>
      if isspace c
      then match cur with
           | [] => split_aux [] s'
           | _ => rev cur :: split_aux [] s'
           end
      else split_aux (c :: cur) s'
  end.

Definition split (s : str) : list str := split_aux [] s.

(** [s.split(sep)] for a one-character separator. *)
Fixpoint split_on_aux (sep : N) (cur : str) (s : str) : list str :=
  match s with
  | [] => [rev cur]
  | c :: s' =>
      if (c =? sep)%N then rev cur :: split_on_aux sep [] s'
      else split_on_aux sep (c :: cur) s'
  end.

Definition split_on (sep : N) (s : str) : list str := split_on_aux sep [] s.

Fixpoint startswith (p s : str) : bool :=
  match p, s with
  | [], _ => true
  | _ :: _, [] => false
  | a :: p', b :: s' => (a =? b)%N && startswith p' s'
  end.

(** [sub in s] *)
Fixpoint contains (sub s : str) : bool :=
  startswith sub s ||
  match s with
  | [] => false
  | _ :: s' => contains sub s'
  end.

Definition endswith (suf s : str) : bool := startswith (rev suf) (rev s).

(** [sep.join(l)] *)
Fixpoint join (sep : str) (l : list str) : str :=
  match l with
  | [] => []
  | [x] => x
  | x :: l' => x ++ sep ++ join sep l'
  end.

(** [c * n] *)
Definition times (c : str) (n : nat) : str := concat (repeat c n).

(** [s.rfind(c)] as an index from the left, [None] for -1. *)
Fixpoint rfind (c : N) (s : str) : option nat :=
  match s with
  | [] => None
  | x :: s' =>
      match rfind c s' with
      | Some i => Some (S i)
      | None => if (x =? c)%N then Some 0 else None
      end
  end.

(** Decimal rendering of a non-negative [int]: [str(n)] and [f"{n}"]. *)
Fixpoint digits_of_uint (d : Decimal.uint) : str :=
  match d with
  | Decimal.Nil => []
  | Decimal.D0 d' => 48%N :: digits_of_uint d'
  | Decimal.D1 d' => 49%N :: digits_of_uint d'
  | Decimal.D2 d' => 50%N :: digits_of_uint d'
  | Decimal.D3 d' => 51%N :: digits_of_uint d'
  | Decimal.D4 d' => 52%N :: digits_of_uint d'
  | Decimal.D5 d' => 53%N :: digits_of_uint d'
  | Decimal.D6 d' => 54%N :: digits_of_uint d'
  | Decimal.D7 d' => 55%N :: digits_of_uint d'
  | Decimal.D8 d' => 56%N :: digits_of_uint d'
  | Decimal.D9 d' => 57%N :: digits_of_uint d'
  end.

Definition of_int (n : N) : str :=
  match digits_of_uint (N.to_uint n) with
  | [] => [48%N]
  | ds => ds
  end.

(** [f"{n:,}"]: groups of three digits from the right, separated by commas. *)
Fixpoint group3 (k : nat) (rds : str) : str :=
  match rds with
  | [] => []
  | d :: r =>
      match k, r with
      | 0%nat, _ :: _ => d :: 44%N :: group3 2 r
      | 0%nat, [] => [d]
      | S k', _ => d :: group3 k' r
      end
  end.

Definition of_int_comma (n : N) : str := rev (group3 2 (rev (of_int n))).

End Str.
Import Str.

Arguments u : simpl never.


(** ** Exceptions *)

(** The classes the script and the library calls it makes can raise or
    name in an [except] clause, with their place in the hierarchy. *)
Inductive exc_class :=
  | BaseException | Exception | OSError | FileNotFoundError | FileExistsError
  | PermissionError | NotADirectoryError | SubprocessError | TimeoutExpired
  | LookupError | IndexError | KeyboardInterrupt.

Definition exc_class_eqb (a b : exc_class) : bool :=
  match a, b with
  | BaseException, BaseException | Exception, Exception | OSError, OSError
  | FileNotFoundError, FileNotFoundError | FileExistsError, FileExistsError
  | PermissionError, PermissionError | NotADirectoryError, NotADirectoryError
  | SubprocessError, SubprocessError | TimeoutExpired, TimeoutExpired
  | LookupError, LookupError | IndexError, IndexError
  | KeyboardInterrupt, KeyboardInterrupt => true
  | _, _ => false
  end.

(** Method resolution order of a class (without [object]). *)
Definition mro (c : exc_class) : list exc_class :=
  match c with
  | BaseException => [BaseException]
  | Exception => [Exception; BaseException]
  | OSError => [OSError; Exception; BaseException]
  | FileNotFoundError => [FileNotFoundError; OSError; Exception; BaseException]
  | FileExistsError => [FileExistsError; OSError; Exception; BaseException]
  | PermissionError => [PermissionError; OSError; Exception; BaseException]
  | NotADirectoryError => [NotADirectoryError; OSError; Exception; BaseException]
  | SubprocessError => [SubprocessError; Exception; BaseException]
  | TimeoutExpired => [TimeoutExpired; SubprocessError; Exception; BaseException]
  | LookupError => [LookupError; Exception; BaseException]
  | IndexError => [IndexError; LookupError; Exception; BaseException]
  | KeyboardInterrupt => [KeyboardInterrupt; BaseException]
  end.

(** A raised exception: an instance of a class with the text [str(e)]
    gives, or the [SystemExit] that [sys.exit(code)] raises. *)
Inductive exception :=
  | Exc (c : exc_class) (msg : str)
  | SystemExit (code : Z).

Definition isinstance (e : exception) (d : exc_class) : bool :=
  match e with
  | Exc c _ => existsb (exc_class_eqb d) (mro c)
  | SystemExit _ => exc_class_eqb d BaseException
  end.

(** [str(e)] *)
Definition str_of_exception (e : exception) : str :=
  match e with
  | Exc _ msg => msg
  | SystemExit code => of_int (Z.to_N code)
  end.

Inductive outcome (A : Type) :=
  | Ret (a : A)
  | Raise (e : exception).
Arguments Ret {A} a.
Arguments Raise {A} e.

(** ** pathlib.Path, POSIX flavour *)

Record Path := mkPath { anchored : bool; parts : list str }.

Definition is_nil {A} (l : list A) : bool :=
  match l with [] => true | _ => false end.

(** [Path(s)]: components are separated by [/]; empty components and
    [.] are dropped.  A leading double slash is read as a single one. *)
Definition Path_of_str (s : str) : Path :=
  {| anchored := startswith [47%N] s;
     parts := filter (fun c => negb (is_nil c) && negb (Str.eqb c [46%N]))
                     (split_on 47 s) |}.

(** [str(p)] *)
Definition str_of_Path (p : Path) : str :=
  if anchored p then 47%N :: join [47%N] (parts p)
  else match parts p with
       | [] => [46%N]
       | ps => join [47%N] ps
       end.

(** [p.name] *)
Definition name (p : Path) : str := last (parts p) [].

(** [p.stem]: the name up to its last dot, unless that dot is the first
    or the last character. *)
Definition stem (p : Path) : str :=
  let n := name p in
  match rfind 46 n with
  | Some i => if (0 <? i)%nat && (i <? List.length n - 1)%nat
              then firstn i n else n
  | None => n
  end.

(** [p / s] *)
Definition truediv (p : Path) (s : str) : Path :=
  let q := Path_of_str s in
  if anchored q then q
  else {| anchored := anchored p; parts := parts p ++ parts q |}.

(** The child path made for a directory entry during a scan. *)
Definition make_child (p : Path) (entry : str) : Path :=
  {| anchored := anchored p; parts := parts p ++ [entry] |}.

(** [fnmatch] on one name, with [*] and [?] as the only wild cards and
    no case folding (the POSIX flavour compiles patterns case-sensitively). *)
Fixpoint fnmatch (pat : str) (nm : str) : bool :=
  match pat with
  | [] => is_nil nm
  | p :: pat' =>
      if (p =? 42)%N then
        (fix star (n : str) : bool :=
           fnmatch pat' n ||
           match n with
           | [] => false
           | _ :: n' => star n'
           end) nm
      else match nm with
           | [] => false
           | c :: nm' =>
               ((p =? 63)%N || (c =? p)%N) && fnmatch pat' nm'
           end
  end.

(** ** The file system *)

Local Set Warnings "-register-all".

(** A tree of directories and files, each with the size [stat] reports.
    There are no symbolic links and no permissions, and [..] is not
    interpreted.  The order of a directory's entries is the order in
    which a scan lists them. *)
Inductive node :=
  | File (st_size : N)
  | Dir (st_size : N) (entries : list (str * node)).

Definition size_of (n : node) : N :=
  match n with File s => s | Dir s _ => s end.

Fixpoint assoc (k : str) (es : list (str * node)) : option node :=
  match es with
  | [] => None
  | (k', x) :: r => if Str.eqb k' k then Some x else assoc k r
  end.

Fixpoint replace (k : str) (x : node) (es : list (str * node))
  : list (str * node) :=
  match es with
  | [] => []
  | (k', y) :: r => if Str.eqb k' k then (k', x) :: r else (k', y) :: replace k x r
  end.

Fixpoint lookup (n : node) (p : list str) : option node :=
  match p with
  | [] => Some n
  | c :: p' =>
      match n with
      | File _ => None
      | Dir _ es =>
          match assoc c es with
          | Some n' => lookup n' p'
          | None => None
          end
      end
  end.

(** Size a newly made directory reports. *)
Definition NEW_DIR_SIZE : N := 4096.

Fixpoint fresh_dirs (p : list str) : node :=
  match p with
  | [] => Dir NEW_DIR_SIZE []
  | c :: p' => Dir NEW_DIR_SIZE [(c, fresh_dirs p')]
  end.

(** [mkdir(parents=True, exist_ok=True)] from node [n] along [p]: missing
    directories are made, existing ones are kept, and a regular file in
    the way is an error ([FileExistsError] at the last component,
    [NotADirectoryError] before it). *)
Fixpoint makedirs (n : node) (p : list str) : outcome node :=
  match p with
  | [] =>
      match n with
      | Dir _ _ => Ret n
      | File _ => Raise (Exc FileExistsError (u "File exists"))
      end
  | c :: p' =>
      match n with
      | File _ => Raise (Exc NotADirectoryError (u "Not a directory"))
      | Dir s es =>
          match assoc c es with
          | None => Ret (Dir s (es ++ [(c, fresh_dirs p')]))
          | Some n' =>
              match makedirs n' p' with
              | Ret n'' => Ret (Dir s (replace c n'' es))
              | Raise e => Raise e
              end
          end
      end
  end.

(** ** The world and the monad of effects *)

Inductive event :=
  | EvMkdir (p : Path)
  | EvScandir (p : Path)
  | EvSpawn (args : list str) (wd : option str) (timeout : N).

(** What a child process can depend on: the working directory, the file
    system and the history of system-level events. *)
Record Sys := mkSys { cwd : list str; root : node; events : list event }.

Record World := mkWorld { sys : Sys; console : list str }.

Definition M (A : Type) : Type := World -> outcome A * World.

Definition ret {A} (a : A) : M A := fun w => (Ret a, w).

Definition raise {A} (e : exception) : M A := fun w => (Raise e, w).

Definition bind {A B} (m : M A) (k : A -> M B) : M B :=
  fun w =>
    match m w with
    | (Ret a, w') => k a w'
    | (Raise e, w') => (Raise e, w')
    end.

Declare Scope py_scope.
Delimit Scope py_scope with py.
Notation "x <- m ;; k" := (bind m (fun x => k))
  (at level 100, m at next level, right associativity) : py_scope.
Notation "' pat <- m ;; k" := (bind m (fun x => match x with pat => k end))
  (at level 100, pat pattern, m at next level, right associativity) : py_scope.
Notation "m ;; k" := (bind m (fun _ => k))
  (at level 100, right associativity) : py_scope.
Local Open Scope py_scope.

(** [try: body except (classes): handler ...]: the first clause one of
    whose classes the exception is an instance of handles it; with no
    such clause the exception propagates. *)
Definition except_clause (A : Type) : Type :=
  (list exc_class * (exception -> M A))%type.

Fixpoint dispatch {A} (hs : list (except_clause A)) (e : exception) : M A :=
  match hs with
  | [] => raise e
  | (cs, h) :: r => if existsb (isinstance e) cs then h e else dispatch r e
  end.

Definition try_ {A} (body : M A) (hs : list (except_clause A)) : M A :=
  fun w =>
    match body w with
    | (Ret a, w') => (Ret a, w')
    | (Raise e, w') => dispatch hs e w'
    end.

(** [for x in l: s = body x s] *)
Fixpoint for_each {A S} (l : list A) (body : A -> S -> M S) (s : S) : M S :=
  match l with
  | [] => ret s
  | x :: l' => s' <- body x s ;; for_each l' body s'
  end.

(** [enumerate(l, start)] *)
Fixpoint enumerate {A} (l : list A) (start : N) : list (N * A) :=
  match l with
  | [] => []
  | x :: l' => (start, x) :: enumerate l' (start + 1)
  end.

(** [l[i]] *)
Definition getitem {A} (l : list A) (i : nat) : M A :=
  match nth_error l i with
  | Some x => ret x
  | None => raise (Exc IndexError (u "list index out of range"))
  end.

(** [sys.exit(code)] *)
Definition sys_exit {A} (code : Z) : M A := raise (SystemExit code).

Definition print (line : str) : M unit :=
  fun w => (Ret tt, {| sys := sys w; console := console w ++ [line] |}).

Definition log (ev : event) (s : Sys) : Sys :=
  {| cwd := cwd s; root := root s; events := events s ++ [ev] |}.

Definition with_root (r : node) (s : Sys) : Sys :=
  {| cwd := cwd s; root := r; events := events s |}.

Definition set_sys (s : Sys) (w : World) : World :=
  {| sys := s; console := console w |}.

(** Parts of [p.absolute()] in a system state. *)
Definition abs_parts (s : Sys) (p : Path) : list str :=
  if anchored p then parts p else cwd s ++ parts p.

Definition stat_in (s : Sys) (p : Path) : option node :=
  lookup (root s) (abs_parts s p).

(** [p.absolute()] *)
Definition absolute (p : Path) : M Path :=
  fun w => (Ret {| anchored := true; parts := abs_parts (sys w) p |}, w).

(** [p.exists()] *)
Definition exists_ (p : Path) : M bool :=
  fun w => (Ret (match stat_in (sys w) p with Some _ => true | None => false end), w).

(** [p.stat().st_size] *)
Definition stat_st_size (p : Path) : M N :=
  fun w =>
    match stat_in (sys w) p with
    | Some n => (Ret (size_of n), w)
    | None => (Raise (Exc FileNotFoundError (u "No such file or directory")), w)
    end.

(** [p.mkdir(parents=True, exist_ok=True)] *)
Definition mkdir_p (p : Path) : M unit :=
  fun w =>
    let s := log (EvMkdir p) (sys w) in
    match makedirs (root s) (abs_parts s p) with
    | Ret r => (Ret tt, set_sys (with_root r s) w)
    | Raise e => (Raise e, set_sys s w)
    end.

(** [list(p.glob(pat))] for a pattern of one component: the entries of
    the directory whose names match, in scan order; nothing when [p] is
    not a directory. *)
Definition glob (p : Path) (pat : str) : M (list Path) :=
  fun w =>
    match stat_in (sys w) p with
    | Some (Dir _ es) =>
        (Ret (map (make_child p) (filter (fnmatch pat) (map fst es))),
         set_sys (log (EvScandir p) (sys w)) w)
    | _ => (Ret [], w)
    end.

(** ** subprocess *)

Record CompletedProcess := mkCompleted
  { returncode : Z; stdout : str; stderr : str }.

Inductive run_outcome :=
  | Completed (r : CompletedProcess)
  | Failed (e : exception).

(** ** The script *)

Section Script.

(** The behaviour of the programs on the search path: what running
    [args] with working directory [wd] under [timeout] seconds does in a
    system state -- how the call ends, and the file system it leaves. *)
Variable run_process : Sys -> list str -> option str -> N -> run_outcome * node.

(** [subprocess.run(args, capture_output=True, text=True, timeout=t, cwd=wd)] *)
Definition subprocess_run (args : list str) (wd : option str) (timeout : N)
  : M CompletedProcess :=
  fun w =>
    let '(o, r') := run_process (sys w) args wd timeout in
    let w' := set_sys (with_root r' (log (EvSpawn args wd timeout) (sys w))) w in
    match o with
    | Completed r => (Ret r, w')
    | Failed e => (Raise e, w')
    end.

Record Word2Markdown := mkWord2Markdown { input_dir : Path; output_dir : Path }.

(** [Word2Markdown.__init__] *)
Definition Word2Markdown_init (input_arg output_arg : str) : M Word2Markdown :=
  let self := {| input_dir := Path_of_str input_arg;
                 output_dir := Path_of_str output_arg |} in
  mkdir_p (output_dir self) ;;
  ret self.

Definition VERSION_PROBE : list str := [u "pandoc"; u "--version"].

(** [Word2Markdown.check_pandoc].  The body of the [try] yields [Some b]
    where the source returns [b] and [None] where it falls through. *)
Definition check_pandoc (self : Word2Markdown) : M bool :=
  r <- try_
         (result <- subprocess_run VERSION_PROBE None 5 ;;
          if (returncode result =? 0)%Z then
            version <- getitem (split (stdout result)) 1 ;;
            print (u "✓ 找到pandoc: " ++ version) ;;
            ret (Some true)
          else ret None)
         [([FileNotFoundError; TimeoutExpired], fun _ => ret None)] ;;
  match r with
  | Some b => ret b
  | None => ret false
  end.

(** [Word2Markdown.find_word_files] *)
Definition find_word_files (self : Word2Markdown) : M (list Path) :=
  ex <- exists_ (input_dir self) ;;
  if negb ex then
    print (u "✗ 输入目录不存在: " ++ str_of_Path (input_dir self)) ;;
    ret []
  else
    word_files <- glob (input_dir self) (u "*.docx") ;;
    (if is_nil word_files
     then print (u "✗ 在 " ++ str_of_Path (input_dir self) ++ u " 中未找到.docx文件")
     else print (u "✓ 找到 " ++ of_int (N.of_nat (List.length word_files))
                 ++ u " 个Word文档")) ;;
    ret word_files.

(** The derived output path of [convert_file]. *)
Definition markdown_file_of (self : Word2Markdown) (word_file : Path) : Path :=
  truediv (output_dir self) (stem word_file ++ u ".md").

(** The command line of [convert_file], from the two absolute paths. *)
Definition pandoc_cmd (markdown_abs word_abs : Path) : list str :=
  [u "pandoc"; u "-f"; u "docx"; u "-t"; u "markdown";
   u "-o"; str_of_Path markdown_abs;
   u "--extract-media=./images"; u "--wrap=none"; u "--toc"; u "--toc-depth=3";
   str_of_Path word_abs].

(** [Word2Markdown.convert_file] *)
Definition convert_file (self : Word2Markdown) (word_file : Path)
  : M (bool * str) :=
  let markdown_file := markdown_file_of self word_file in
  ex <- exists_ markdown_file ;;
  (if ex
   then print (u "  ⚠ 警告: " ++ name markdown_file ++ u " 已存在，将被覆盖")
   else ret tt) ;;
  markdown_abs <- absolute markdown_file ;;
  word_abs <- absolute word_file ;;
  let cmd := pandoc_cmd markdown_abs word_abs in
  try_
    (print (u "  🔄 转换中: " ++ name word_file ++ u " -> " ++ name markdown_file) ;;
     result <- subprocess_run cmd (Some (str_of_Path (output_dir self))) 60 ;;
     if (returncode result =? 0)%Z then
       ex <- exists_ markdown_file ;;
       nonempty <- (if ex
                    then sz <- stat_st_size markdown_file ;; ret (0 <? sz)%N
                    else ret false) ;;
       if nonempty then
         size <- stat_st_size markdown_file ;;
         print (u "  ✓ 成功: " ++ name markdown_file ++ u " ("
                ++ of_int_comma size ++ u " bytes)") ;;
         ret (true, u "转换成功: " ++ name markdown_file)
       else
         ret (false, u "输出文件为空: " ++ name markdown_file)
     else
       let error_msg := if negb (is_nil (stderr result))
                        then strip (stderr result)
                        else u "未知错误" in
       print (u "  ✗ 失败: " ++ error_msg) ;;
       ret (false, u "转换失败: " ++ error_msg))
    [([TimeoutExpired], fun _ => ret (false, u "转换超时（60秒）"));
     ([Exception], fun e => ret (false, u "转换异常: " ++ str_of_exception e))].

(** One turn of the loop of [convert_all] on the counters and the list
    of errors. *)
Definition convert_step (self : Word2Markdown) (total : nat)
  (item : N * Path) (st : N * N * list str) : M (N * N * list str) :=
  let '(i, word_file) := item in
  let '(success_count, fail_count, errors) := st in
  print (u "[" ++ of_int i ++ u "/" ++ of_int (N.of_nat total) ++ u "] "
         ++ name word_file) ;;
  r <- convert_file self word_file ;;
  let '(success, msg) := r in
  let st' := if success
             then (success_count + 1, fail_count, errors)%N
             else (success_count, fail_count + 1,
                   errors ++ [name word_file ++ u ": " ++ msg])%N in
  print [] ;;
  ret st'.

(** [Word2Markdown.convert_all] *)
Definition convert_all (self : Word2Markdown) : M (N * N * list str) :=
  word_files <- find_word_files self ;;
  if is_nil word_files then ret (0%N, 0%N, [])
  else
    print (10%N :: times (u "=") 60) ;;
    print (u "开始转换 " ++ of_int (N.of_nat (List.length word_files))
           ++ u " 个Word文档") ;;
    print (u "输入目录: " ++ str_of_Path (input_dir self)) ;;
    print (u "输出目录: " ++ str_of_Path (output_dir self)) ;;
    print (times (u "=") 60 ++ [10%N]) ;;
    for_each (enumerate word_files 1)
             (convert_step self (List.length word_files)) (0%N, 0%N, []).

(** [Word2Markdown.print_summary] *)
Definition print_summary (self : Word2Markdown)
  (success_count fail_count : N) (errors : list str) : M unit :=
  print (times (u "=") 60) ;;
  print (u "转换完成！") ;;
  print (times (u "=") 60) ;;
  print (u "成功: " ++ of_int success_count) ;;
  print (u "失败: " ++ of_int fail_count) ;;
  print (u "总计: " ++ of_int (success_count + fail_count)) ;;
  (if negb (is_nil errors) then
     print (10%N :: u "错误详情:") ;;
     for_each errors (fun error _ => print (u "  ✗ " ++ error)) tt
   else ret tt) ;;
  out_abs <- absolute (output_dir self) ;;
  print (10%N :: u "输出目录: " ++ str_of_Path out_abs) ;;
  print (times (u "=") 60).

(** The parsed command line: [--input], [--output] and [--check]. *)
Record Namespace := mkNamespace { input : str; output : str; check : bool }.

(** The defaults of the argument parser. *)
Definition default_args : Namespace :=
  {| input := u "docs/word"; output := u "docs"; check := false |}.

(** [main], after [parser.parse_args()] produced [args]. *)
Definition main (args : Namespace) : M unit :=
  converter <- Word2Markdown_init (input args) (output args) ;;
  print (times (u "=") 60) ;;
  print (u "Word转Markdown转换器") ;;
  print (times (u "=") 60) ;;
  ok <- check_pandoc converter ;;
  if negb ok then
    print (u "✗ 错误: 未找到pandoc命令") ;;
    print (10%N :: u "请先安装pandoc:") ;;
    print (u "  Ubuntu/Debian: sudo apt-get install pandoc") ;;
    print (u "  CentOS/RHEL:   sudo yum install pandoc") ;;
    print (u "  macOS:         brew install pandoc") ;;
    print (u "  或访问: https://pandoc.org/installing.html") ;;
    sys_exit 1
  else if check args then
    word_files <- find_word_files converter ;;
    (if negb (is_nil word_files) then
       print (10%N :: u "将转换以下文件:") ;;
       for_each word_files (fun f _ => print (u "  - " ++ name f)) tt
     else ret tt) ;;
    sys_exit 0
  else
    r <- convert_all converter ;;
    let '(success_count, fail_count, errors) := r in
    print_summary converter success_count fail_count errors ;;
    sys_exit (if (fail_count =? 0)%N then 0 else 1).

End Script.

(** ** Vocabulary of the specification *)

Definition Process : Type := Sys -> list str -> option str -> N -> run_outcome * node.

(** A converter whose failures to run are errors, that is instances of
    [Exception]: it never ends in [KeyboardInterrupt] or [SystemExit]. *)
Definition raises_only_errors (rp : Process) : Prop :=
  forall s args wd t e r',
    rp s args wd t = (Failed e, r') -> isinstance e Exception = true.

(** Two programs that differ only in what they print: the result and the
    system state a program leaves do not depend on the console. *)
Definition blind {A} (m : M A) : Prop :=
  forall w1 w2, sys w1 = sys w2 ->
    fst (m w1) = fst (m w2) /\ sys (snd (m w1)) = sys (snd (m w2)).

(** The command [convert_file] runs for [word_file] in system state [s],
    and the working directory it runs it in. *)
Definition convert_cmd (self : Word2Markdown) (word_file : Path) (s : Sys)
  : list str :=
  pandoc_cmd
    {| anchored := true; parts := abs_parts s (markdown_file_of self word_file) |}
    {| anchored := true; parts := abs_parts s word_file |}.

Definition convert_wd (self : Word2Markdown) : option str :=
  Some (str_of_Path (output_dir self)).

Definition convert_event (self : Word2Markdown) (s : Sys) (word_file : Path)
  : event :=
  EvSpawn (convert_cmd self word_file s) (convert_wd self) 60.

Definition is_spawn (ev : event) : bool :=
  match ev with EvSpawn _ _ _ => true | _ => false end.

(** The subprocesses started so far. *)
Definition spawned (s : Sys) : list event := filter is_spawn (events s).

(** The results of [convert_file] on each file of a list, in order. *)
Fixpoint convert_each (rp : Process) (self : Word2Markdown) (files : list Path)
  : M (list (bool * str)) :=
  match files with
  | [] => ret []
  | f :: rest =>
      r <- convert_file rp self f ;;
      rs <- convert_each rp self rest ;;
      ret (r :: rs)
  end.

Definition succeeded (a : Path * (bool * str)) : bool := fst (snd a).

Definition failed (a : Path * (bool * str)) : bool := negb (fst (snd a)).

(** The entry of the list of errors for a failed file: ["<name>: <message>"]. *)
Definition error_entry (a : Path * (bool * str)) : str :=
  name (fst a) ++ u ": " ++ snd (snd a).

(** What one file's result does to the counters and the list of errors. *)
Definition tally (st : N * N * list str) (a : Path * (bool * str))
  : N * N * list str :=
  let '(sc, fc, errors) := st in
  if succeeded a then (sc + 1, fc, errors)%N
  else (sc, fc + 1, errors ++ [error_entry a])%N.

(** A pattern without wild cards. *)
Definition literal (pat : str) : Prop :=
  Forall (fun c => c <> 42%N /\ c <> 63%N) pat.

(** The name ends with the extension [.docx], compared character by
    character. *)
Definition has_docx_extension (nm : str) : bool := endswith (u ".docx") nm.

(** No component on the way to [p] is a regular file, so that the
    directory [p] can be made. *)
Fixpoint creatable (n : node) (p : list str) : bool :=
  match n with
  | File _ => false
  | Dir _ es =>
      match p with
      | [] => true
      | c :: p' =>
          match assoc c es with
          | Some n' => creatable n' p'
          | None => true
          end
      end
  end.

(** ** Scenarios *)

Definition LF : str := [10%N].

Definition pandoc_version_text : str :=
  u "pandoc 2.9.2.1" ++ LF ++ u "Compiled with pandoc-types 1.20".

(** A converter that fails every conversion with exit code 1 and the
    given text on its error stream. *)
Definition failing_pandoc (err : str) : Process :=
  fun s args _ _ =>
    if list_eq_dec (list_eq_dec N.eq_dec) args VERSION_PROBE
    then (Completed (mkCompleted 0 pandoc_version_text []), root s)
    else (Completed (mkCompleted 1 [] err), root s).

(** The output path named after [-o] on a command line. *)
Fixpoint output_arg (args : list str) : option str :=
  match args with
  | [] => None
  | a :: rest =>
      if Str.eqb a (u "-o")
      then match rest with o :: _ => Some o | [] => None end
      else output_arg rest
  end.

(** Writing a file of [size] bytes at an absolute path, where the
    directory it goes to exists. *)
Fixpoint write_file (n : node) (p : list str) (size : N) : node :=
  match n, p with
  | Dir s es, [c] =>
      match assoc c es with
      | Some _ => Dir s (replace c (File size) es)
      | None => Dir s (es ++ [(c, File size)])
      end
  | Dir s es, c :: p' =>
      match assoc c es with
      | Some n' => Dir s (replace c (write_file n' p' size) es)
      | None => n
      end
  | _, _ => n
  end.

(** A converter that succeeds and writes [size] bytes to its output. *)
Definition writing_pandoc (size : N) : Process :=
  fun s args _ _ =>
    if list_eq_dec (list_eq_dec N.eq_dec) args VERSION_PROBE
    then (Completed (mkCompleted 0 pandoc_version_text []), root s)
    else match output_arg args with
         | Some o => (Completed (mkCompleted 0 [] []),
                      write_file (root s) (parts (Path_of_str o)) size)
         | None => (Completed (mkCompleted 2 [] (u "no output")), root s)
         end.

(** A converter that cannot be run: every attempt raises [e]. *)
Definition broken_pandoc (e : exception) : Process :=
  fun s _ _ _ => (Failed e, root s).

(** A directory with [a.docx], [b.txt], [c.DOCX] and a subdirectory
    that holds [x.docx]. *)
Definition mixed_dir : node :=
  Dir 4096 [(u "a.docx", File 10); (u "b.txt", File 3); (u "c.DOCX", File 7);
            (u "sub", Dir 4096 [(u "x.docx", File 1)])].

Definition world_of (r : node) : World :=
  {| sys := {| cwd := [u "home"]; root := r; events := [] |}; console := [] |}.

Definition mixed_world : World :=
  world_of (Dir 4096 [(u "home", Dir 4096 [(u "input", mixed_dir)])]).

Definition report_world : World :=
  world_of (Dir 4096 [(u "home", Dir 4096
    [(u "input", Dir 4096 [(u "report.docx", File 2048)]);
     (u "out", Dir 4096 [])])]).


Definition converter_io : Word2Markdown :=
  {| input_dir := Path_of_str (u "input"); output_dir := Path_of_str (u "out") |}.

Definition args_io (chk : bool) : Namespace :=
  {| input := u "input"; output := u "out"; check := chk |}.

(** The path discovery gives [input/report.docx]. *)
Definition report_docx : Path :=
  make_child (input_dir converter_io) (u "report.docx").

(** A world where [out] is a regular file. *)
Definition blocked_world : World :=
  world_of (Dir 4096 [(u "home", Dir 4096
    [(u "input", Dir 4096 [(u "report.docx", File 2048)]);
     (u "out", File 5)])]).

(** A world where [input] is a regular file. *)
Definition input_file_world : World :=
  world_of (Dir 4096 [(u "home", Dir 4096 [(u "input", File 3)])]).

(** A program that answers every call with exit code 0 and the single
    word [pandoc]. *)
Definition terse_pandoc : Process :=
  fun s _ _ _ => (Completed (mkCompleted 0 (u "pandoc") []), root s).

(** ** The script where library calls can fail *)

(** In the script above testing a path, reading its status, making it
    absolute and printing always succeed.  On a real system each of
    them can raise: [exists()] and [stat()] for lack of permission,
    [absolute()] when the working directory is gone, [print] when the
    console cannot take the text.  Here the environment decides, call by
    call, whether a library call fails and with what. *)
Inductive call :=
  | CallExists (p : Path)
  | CallStat (p : Path)
  | CallAbsolute (p : Path)
  | CallPrint (line : str)
  | CallGlob (p : Path) (pat : str).

Definition Faults : Type := World -> call -> option exception.

Definition no_faults : Faults := fun _ _ => None.

(** A library call that raises what the environment says, and behaves
    as [m] when the environment says nothing. *)
Definition guarded {A} (faults : Faults) (c : call) (m : M A) : M A :=
  fun w =>
    match faults w c with
    | Some e => (Raise e, w)
    | None => m w
    end.

Module Faulty.

Section FaultyScript.

Variable faults : Faults.
Variable run_process : Process.

(** The library calls; on the right of each definition stands the call
    of the same name that cannot fail. *)
Definition print (line : str) : M unit :=
  guarded faults (CallPrint line) (print line).

Definition exists_ (p : Path) : M bool :=
  guarded faults (CallExists p) (exists_ p).

Definition stat_st_size (p : Path) : M N :=
  guarded faults (CallStat p) (stat_st_size p).

Definition absolute (p : Path) : M Path :=
  guarded faults (CallAbsolute p) (absolute p).

Definition glob (p : Path) (pat : str) : M (list Path) :=
  guarded faults (CallGlob p pat) (glob p pat).

(** [Word2Markdown.find_word_files] *)
Definition find_word_files (self : Word2Markdown) : M (list Path) :=
  ex <- exists_ (input_dir self) ;;
  if negb ex then
    print (u "✗ 输入目录不存在: " ++ str_of_Path (input_dir self)) ;;
    ret []
  else
    word_files <- glob (input_dir self) (u "*.docx") ;;
    (if is_nil word_files
     then print (u "✗ 在 " ++ str_of_Path (input_dir self) ++ u " 中未找到.docx文件")
     else print (u "✓ 找到 " ++ of_int (N.of_nat (List.length word_files))
                 ++ u " 个Word文档")) ;;
    ret word_files.

(** The part of [convert_file] before its [try], lines 104 to 131: it
    gives the command line. *)
Definition before_try (self : Word2Markdown) (word_file : Path) : M (list str) :=
  let markdown_file := markdown_file_of self word_file in
  ex <- exists_ markdown_file ;;
  (if ex
   then print (u "  ⚠ 警告: " ++ name markdown_file ++ u " 已存在，将被覆盖")
   else ret tt) ;;
  markdown_abs <- absolute markdown_file ;;
  word_abs <- absolute word_file ;;
  ret (pandoc_cmd markdown_abs word_abs).

(** The body of the [try] of [convert_file], lines 134 to 154. *)
Definition attempt (self : Word2Markdown) (word_file : Path) (cmd : list str)
  : M (bool * str) :=
  let markdown_file := markdown_file_of self word_file in
  print (u "  🔄 转换中: " ++ name word_file ++ u " -> " ++ name markdown_file) ;;
  result <- subprocess_run run_process cmd
              (Some (str_of_Path (output_dir self))) 60 ;;
  if (returncode result =? 0)%Z then
    ex <- exists_ markdown_file ;;
    nonempty <- (if ex
                 then sz <- stat_st_size markdown_file ;; ret (0 <? sz)%N
                 else ret false) ;;
    if nonempty then
      size <- stat_st_size markdown_file ;;
      print (u "  ✓ 成功: " ++ name markdown_file ++ u " ("
             ++ of_int_comma size ++ u " bytes)") ;;
      ret (true, u "转换成功: " ++ name markdown_file)
    else
      ret (false, u "输出文件为空: " ++ name markdown_file)
  else
    let error_msg := if negb (is_nil (stderr result))
                     then strip (stderr result)
                     else u "未知错误" in
    print (u "  ✗ 失败: " ++ error_msg) ;;
    ret (false, u "转换失败: " ++ error_msg).

(** The [except] clauses of [convert_file], lines 156 to 159. *)
Definition handlers : list (except_clause (bool * str)) :=
  [([TimeoutExpired], fun _ => ret (false, u "转换超时（60秒）"));
   ([Exception], fun e => ret (false, u "转换异常: " ++ str_of_exception e))].

(** [Word2Markdown.convert_file] *)
Definition convert_file (self : Word2Markdown) (word_file : Path)
  : M (bool * str) :=
  let markdown_file := markdown_file_of self word_file in
  ex <- exists_ markdown_file ;;
  (if ex
   then print (u "  ⚠ 警告: " ++ name markdown_file ++ u " 已存在，将被覆盖")
   else ret tt) ;;
  markdown_abs <- absolute markdown_file ;;
  word_abs <- absolute word_file ;;
  let cmd := pandoc_cmd markdown_abs word_abs in
  try_
    (print (u "  🔄 转换中: " ++ name word_file ++ u " -> " ++ name markdown_file) ;;
     result <- subprocess_run run_process cmd
                 (Some (str_of_Path (output_dir self))) 60 ;;
     if (returncode result =? 0)%Z then
       ex <- exists_ markdown_file ;;
       nonempty <- (if ex
                    then sz <- stat_st_size markdown_file ;; ret (0 <? sz)%N
                    else ret false) ;;
       if nonempty then
         size <- stat_st_size markdown_file ;;
         print (u "  ✓ 成功: " ++ name markdown_file ++ u " ("
                ++ of_int_comma size ++ u " bytes)") ;;
         ret (true, u "转换成功: " ++ name markdown_file)
       else
         ret (false, u "输出文件为空: " ++ name markdown_file)
     else
       let error_msg := if negb (is_nil (stderr result))
                        then strip (stderr result)
                        else u "未知错误" in
       print (u "  ✗ 失败: " ++ error_msg) ;;
       ret (false, u "转换失败: " ++ error_msg))
    [([TimeoutExpired], fun _ => ret (false, u "转换超时（60秒）"));
     ([Exception], fun e => ret (false, u "转换异常: " ++ str_of_exception e))].

(** One turn of the loop of [convert_all]. *)
Definition convert_step (self : Word2Markdown) (total : nat)
  (item : N * Path) (st : N * N * list str) : M (N * N * list str) :=
  let '(i, word_file) := item in
  let '(success_count, fail_count, errors) := st in
  print (u "[" ++ of_int i ++ u "/" ++ of_int (N.of_nat total) ++ u "] "
         ++ name word_file) ;;
  r <- convert_file self word_file ;;
  let '(success, msg) := r in
  let st' := if success
             then (success_count + 1, fail_count, errors)%N
             else (success_count, fail_count + 1,
                   errors ++ [name word_file ++ u ": " ++ msg])%N in
  print [] ;;
  ret st'.

(** [Word2Markdown.convert_all] *)
Definition convert_all (self : Word2Markdown) : M (N * N * list str) :=
  word_files <- find_word_files self ;;
  if is_nil word_files then ret (0%N, 0%N, [])
  else
    print (10%N :: times (u "=") 60) ;;
    print (u "开始转换 " ++ of_int (N.of_nat (List.length word_files))
           ++ u " 个Word文档") ;;
    print (u "输入目录: " ++ str_of_Path (input_dir self)) ;;
    print (u "输出目录: " ++ str_of_Path (output_dir self)) ;;
    print (times (u "=") 60 ++ [10%N]) ;;
    for_each (enumerate word_files 1)
             (convert_step self (List.length word_files)) (0%N, 0%N, []).

End FaultyScript.

End Faulty.





(** A program that leaves the system as it is, whatever it returns or
    raises. *)
Definition quiet {A} (m : M A) : Prop :=
  forall w, sys (snd (m w)) = sys w.


(** * Properties *)

(** ** Strings and patterns *)

Lemma eqb_eq (a b : str) : Str.eqb a b = true <-> a = b.
Proof.
  unfold Str.eqb. destruct (list_eq_dec N.eq_dec a b); split; congruence.
Qed.

Lemma eqb_refl (a : str) : Str.eqb a a = true.
Proof. apply eqb_eq. reflexivity. Qed.

Lemma startswith_app (p t : str) : startswith p (p ++ t) = true.
Proof.
  induction p as [|a p IH]; simpl; [reflexivity|].
  rewrite N.eqb_refl. exact IH.
Qed.

Lemma startswith_inv (p s : str) :
  startswith p s = true -> exists t, s = p ++ t.
Proof.
  revert s. induction p as [|a p IH]; intros s H.
  - exists s. reflexivity.
  - destruct s as [|b s]; simpl in H; [discriminate|].
    apply andb_true_iff in H. destruct H as [Hab H].
    apply N.eqb_eq in Hab. subst b.
    destruct (IH _ H) as [t ->]. exists t. reflexivity.
Qed.

Lemma contains_app (pre sub post : str) :
  contains sub (pre ++ sub ++ post) = true.
Proof.
  induction pre as [|a pre IH].
  - simpl. destruct sub; simpl.
    + destruct post; reflexivity.
    + rewrite N.eqb_refl, startswith_app. reflexivity.
  - simpl. rewrite IH. apply orb_true_r.
Qed.

Lemma contains_suffix (pre sub : str) : contains sub (pre ++ sub) = true.
Proof.
  rewrite <- (app_nil_r sub) at 2. apply contains_app.
Qed.

Lemma endswith_iff (suf s : str) :
  endswith suf s = true <-> exists pre, s = pre ++ suf.
Proof.
  unfold endswith. split.
  - intros H. apply startswith_inv in H. destruct H as [t H].
    exists (rev t). rewrite <- (rev_involutive s), H, rev_app_distr.
    rewrite rev_involutive. reflexivity.
  - intros [pre ->]. rewrite rev_app_distr. apply startswith_app.
Qed.

(** A pattern without wild cards matches exactly itself. *)
Lemma fnmatch_literal (pat nm : str) :
  literal pat -> fnmatch pat nm = true <-> nm = pat.
Proof.
  intros L. revert nm. induction L as [|p pat [H42 H63] L IH]; intros nm.
  - simpl. destruct nm; simpl; split; congruence.
  - simpl. apply N.eqb_neq in H42. apply N.eqb_neq in H63.
    rewrite H42. destruct nm as [|c nm]; [split; discriminate|].
    rewrite H63. simpl. rewrite andb_true_iff, N.eqb_eq, IH.
    split; [intros [-> ->]; reflexivity | intros E; inversion E; auto].
Qed.

(** A star followed by a literal matches the names that end with it. *)
Lemma fnmatch_star_literal (pat nm : str) :
  literal pat -> fnmatch (42%N :: pat) nm = true <-> exists pre, nm = pre ++ pat.
Proof.
  intros L. simpl.
  induction nm as [|c nm IH].
  - rewrite orb_false_r, (fnmatch_literal pat [] L). split.
    + intros <-. exists []. reflexivity.
    + intros [pre E]. symmetry in E. apply app_eq_nil in E. symmetry. apply E.
  - rewrite orb_true_iff, IH, (fnmatch_literal pat (c :: nm) L). split.
    + intros [E | [pre E]].
      * exists []. exact E.
      * exists (c :: pre). simpl. congruence.
    + intros [[|d pre] E]; simpl in E.
      * left. exact E.
      * right. exists pre. congruence.
Qed.

Lemma docx_literal : literal (u ".docx").
Proof. repeat constructor; discriminate. Qed.

Lemma glob_pattern_docx (nm : str) :
  fnmatch (u "*.docx") nm = has_docx_extension nm.
Proof.
  unfold has_docx_extension.
  destruct (endswith (u ".docx") nm) eqn:E.
  - apply endswith_iff in E.
    exact (proj2 (fnmatch_star_literal (u ".docx") nm docx_literal) E).
  - destruct (fnmatch (u "*.docx") nm) eqn:F; [|reflexivity].
    apply (fnmatch_star_literal (u ".docx") nm docx_literal) in F.
    apply endswith_iff in F. congruence.
Qed.

(** ** The file system *)


Lemma assoc_replace k x y es :
  assoc k es = Some y -> assoc k (replace k x es) = Some x.
Proof.
  induction es as [|[k' z] es IH]; simpl; [discriminate|].
  destruct (Str.eqb k' k) eqn:E; simpl; rewrite E; auto.
Qed.




(** [mkdir -p] succeeds exactly when no regular file is in the way. *)
Lemma makedirs_creatable p : forall n,
  creatable n p = true <-> exists n', makedirs n p = Ret n'.
Proof.
  induction p as [|c p IH]; intros n.
  - destruct n; simpl; split; try discriminate; eauto.
    intros [n' H]; discriminate.
  - destruct n as [|s es]; simpl.
    + split; [discriminate | intros [n' H]; discriminate].
    + destruct (assoc c es) as [n1|].
      * rewrite IH. split; intros [n' H].
        -- rewrite H. eauto.
        -- destruct (makedirs n1 p); [eauto | discriminate].
      * split; eauto.
Qed.



(** ** The monad *)

Lemma bind_Ret {A B} (m : M A) (k : A -> M B) w a w' :
  m w = (Ret a, w') -> bind m k w = k a w'.
Proof. unfold bind. intros ->. reflexivity. Qed.

Lemma bind_Raise {A B} (m : M A) (k : A -> M B) w e w' :
  m w = (Raise e, w') -> bind m k w = (Raise e, w').
Proof. unfold bind. intros ->. reflexivity. Qed.

Lemma blind_ret {A} (a : A) : blind (ret a).
Proof. intros w1 w2 H. simpl. auto. Qed.

Lemma blind_raise {A} e : blind (@raise A e).
Proof. intros w1 w2 H. simpl. auto. Qed.

Lemma blind_print line : blind (print line).
Proof. intros w1 w2 H. simpl. auto. Qed.

Lemma blind_bind {A B} (m : M A) (k : A -> M B) :
  blind m -> (forall a, blind (k a)) -> blind (bind m k).
Proof.
  intros Hm Hk w1 w2 H. unfold bind.
  destruct (Hm w1 w2 H) as [Hv Hs].
  destruct (m w1) as [[a1|e1] w1'], (m w2) as [[a2|e2] w2']; simpl in *;
    try discriminate.
  - inversion Hv; subst. apply Hk. exact Hs.
  - inversion Hv; subst. auto.
Qed.

Lemma blind_dispatch {A} (hs : list (except_clause A)) :
  Forall (fun c => forall e, blind (snd c e)) hs -> forall e, blind (dispatch hs e).
Proof.
  induction 1 as [|[cs h] hs Hh _ IH]; intros e; simpl.
  - apply blind_raise.
  - destruct (existsb (isinstance e) cs); [apply Hh | apply IH].
Qed.

Lemma blind_try {A} (body : M A) (hs : list (except_clause A)) :
  blind body -> Forall (fun c => forall e, blind (snd c e)) hs ->
  blind (try_ body hs).
Proof.
  intros Hb Hh w1 w2 H. unfold try_.
  destruct (Hb w1 w2 H) as [Hv Hs].
  destruct (body w1) as [[a1|e1] w1'], (body w2) as [[a2|e2] w2']; simpl in *;
    try discriminate.
  - auto.
  - inversion Hv; subst. apply blind_dispatch; assumption.
Qed.

Lemma blind_for_each {A S} (body : A -> S -> M S) (l : list A) :
  (forall x s, blind (body x s)) -> forall s, blind (for_each l body s).
Proof.
  intros Hb. induction l as [|x l IH]; intros s; simpl.
  - apply blind_ret.
  - apply blind_bind; [apply Hb | exact IH].
Qed.

Lemma blind_getitem {A} (l : list A) i : blind (getitem l i).
Proof.
  unfold getitem. destruct (nth_error l i); [apply blind_ret | apply blind_raise].
Qed.

Lemma blind_exists p : blind (exists_ p).
Proof. intros w1 w2 H. unfold exists_. simpl. rewrite H. auto. Qed.

Lemma blind_absolute p : blind (absolute p).
Proof. intros w1 w2 H. unfold absolute. simpl. rewrite H. auto. Qed.

Lemma blind_stat_st_size p : blind (stat_st_size p).
Proof.
  intros w1 w2 H. unfold stat_st_size. rewrite H.
  destruct (stat_in (sys w2) p); simpl; auto.
Qed.

Lemma blind_mkdir_p p : blind (mkdir_p p).
Proof.
  intros w1 w2 H. unfold mkdir_p. rewrite H.
  destruct (makedirs _ _); simpl; auto.
Qed.

Lemma blind_glob p pat : blind (glob p pat).
Proof.
  intros w1 w2 H. unfold glob. rewrite H.
  destruct (stat_in (sys w2) p) as [[|]|]; simpl; auto.
Qed.

Lemma blind_subprocess_run rp args wd t : blind (subprocess_run rp args wd t).
Proof.
  intros w1 w2 H. unfold subprocess_run. rewrite H.
  destruct (rp (sys w2) args wd t) as [[r|e] r']; simpl; auto.
Qed.

Create HintDb blind.
#[local] Hint Resolve blind_ret blind_raise blind_print blind_getitem blind_exists
  blind_absolute blind_stat_st_size blind_mkdir_p blind_glob
  blind_subprocess_run : blind.

(** Running a console-blind program from a world with the same system
    state gives the same result and the same system state. *)
Lemma blind_run {A} (m : M A) w1 w2 o w1' :
  blind m -> sys w2 = sys w1 -> m w1 = (o, w1') ->
  exists w2', m w2 = (o, w2') /\ sys w2' = sys w1'.
Proof.
  intros Hm Hs E. destruct (Hm w2 w1 Hs) as [Hv Hs'].
  rewrite E in Hv, Hs'. simpl in *.
  destruct (m w2) as [o2 w2']. simpl in *. subst. eauto.
Qed.

Ltac blind_step :=
  match goal with
  | |- blind (bind _ _) => apply blind_bind; [|intros]
  | |- blind (try_ _ _) => apply blind_try
  | |- blind (for_each _ _ _) => apply blind_for_each; intros
  | |- blind (if ?b then _ else _) => destruct b
  | |- blind (match ?x with _ => _ end) => destruct x
  | |- blind (sys_exit _) => apply blind_raise
  | |- Forall _ _ => constructor
  | |- forall _, _ => intros
  | |- _ => solve [auto with blind]
  end.

Ltac blind_tac := repeat (cbn [snd]; blind_step).

(** ** The methods, one by one *)

Section Properties.

Variable rp : Process.

(** *** Nothing depends on the console *)

Lemma blind_init i o : blind (Word2Markdown_init i o).
Proof. unfold Word2Markdown_init. blind_tac. Qed.

Lemma blind_check_pandoc self : blind (check_pandoc rp self).
Proof. unfold check_pandoc. blind_tac. Qed.


Lemma blind_convert_file self word_file : blind (convert_file rp self word_file).
Proof. unfold convert_file. blind_tac. Qed.


Lemma blind_convert_each self files : blind (convert_each rp self files).
Proof.
  induction files as [|f files IH]; simpl.
  - apply blind_ret.
  - pose proof (blind_convert_file self f). blind_tac.
Qed.


Lemma blind_print_summary self sc fc errs : blind (print_summary self sc fc errs).
Proof. unfold print_summary. blind_tac. Qed.

(** *** [check_pandoc] *)

(** The run of [check_pandoc], by the way the version probe ends. *)
Lemma check_pandoc_run self w o r' :
  rp (sys w) VERSION_PROBE None 5%N = (o, r') ->
  exists c',
    check_pandoc rp self w =
    (match o with
     | Completed r =>
         if (returncode r =? 0)%Z then
           match nth_error (split (stdout r)) 1 with
           | Some _ => Ret true
           | None => Raise (Exc IndexError (u "list index out of range"))
           end
         else Ret false
     | Failed e =>
         if isinstance e FileNotFoundError || isinstance e TimeoutExpired
         then Ret false else Raise e
     end,
     mkWorld (with_root r' (log (EvSpawn VERSION_PROBE None 5) (sys w))) c').
Proof.
  intros H.
  unfold check_pandoc, bind, try_, subprocess_run, getitem, print, ret, raise.
  rewrite H. destruct o as [r|e].
  - destruct (returncode r =? 0)%Z.
    + destruct (nth_error (split (stdout r)) 1);
        cbn [sys console set_sys dispatch existsb isinstance mro exc_class_eqb orb raise];
        eexists; reflexivity.
    + cbn [sys console set_sys]. eexists; reflexivity.
  - cbn [dispatch existsb orb raise ret].
    rewrite orb_false_r.
    destruct (isinstance e FileNotFoundError || isinstance e TimeoutExpired);
      eexists; reflexivity.
Qed.

(** [check_pandoc] prints one line when it returns true, and nothing
    otherwise. *)
Lemma check_pandoc_console self w :
  match fst (check_pandoc rp self w) with
  | Ret true =>
      exists version,
        console (snd (check_pandoc rp self w))
        = console w ++ [u "✓ 找到pandoc: " ++ version]
  | _ => console (snd (check_pandoc rp self w)) = console w
  end.
Proof.
  unfold check_pandoc, bind, try_, subprocess_run, getitem, print, ret, raise.
  destruct (rp (sys w) VERSION_PROBE None 5%N) as [[r|e] r'].
  - destruct (returncode r =? 0)%Z.
    + destruct (nth_error (split (stdout r)) 1) as [v|];
        cbn [sys console set_sys dispatch existsb isinstance mro exc_class_eqb orb
             raise fst snd].
      * exists v. reflexivity.
      * reflexivity.
    + reflexivity.
  - cbn [dispatch existsb orb raise ret]. rewrite orb_false_r.
    destruct (isinstance e FileNotFoundError || isinstance e TimeoutExpired);
      reflexivity.
Qed.

(** *** [find_word_files] *)

Lemma find_word_files_run self w :
  exists c',
    find_word_files self w =
    match stat_in (sys w) (input_dir self) with
    | Some (Dir _ es) =>
        (Ret (map (make_child (input_dir self))
                  (filter (fnmatch (u "*.docx")) (map fst es))),
         mkWorld (log (EvScandir (input_dir self)) (sys w)) c')
    | _ => (Ret [], mkWorld (sys w) c')
    end.
Proof.
  unfold find_word_files, bind, exists_, glob, print, ret.
  destruct (stat_in (sys w) (input_dir self)) as [[sz|sz es]|] eqn:E;
    cbn [negb sys console set_sys]; rewrite ?E.
  - eexists; reflexivity.
  - destruct (is_nil _); eexists; reflexivity.
  - eexists; reflexivity.
Qed.

(** [find_word_files] always returns, and starts no subprocess. *)
Lemma find_word_files_returns self w :
  exists files w0,
    find_word_files self w = (Ret files, w0)
    /\ cwd (sys w0) = cwd (sys w) /\ root (sys w0) = root (sys w)
    /\ spawned (sys w0) = spawned (sys w).
Proof.
  destruct (find_word_files_run self w) as [c' E]. rewrite E.
  destruct (stat_in (sys w) (input_dir self)) as [[sz|sz es]|];
    do 2 eexists; (split; [reflexivity|]); cbn; repeat split.
  unfold spawned. cbn. rewrite filter_app. cbn. apply app_nil_r.
Qed.

(** *** [convert_file] *)

(** The run of [convert_file], by the way the converter ends and by
    what the output path is afterwards. *)
Lemma convert_file_run self word_file w o r' :
  rp (sys w) (convert_cmd self word_file (sys w)) (convert_wd self) 60%N = (o, r') ->
  let md := markdown_file_of self word_file in
  let s' := with_root r' (log (convert_event self (sys w) word_file) (sys w)) in
  exists c',
    convert_file rp self word_file w =
    (match o with
     | Completed r =>
         if (returncode r =? 0)%Z then
           match stat_in s' md with
           | Some n =>
               if (0 <? size_of n)%N
               then Ret (true, u "转换成功: " ++ name md)
               else Ret (false, u "输出文件为空: " ++ name md)
           | None => Ret (false, u "输出文件为空: " ++ name md)
           end
         else Ret (false, u "转换失败: " ++
                          (if negb (is_nil (stderr r)) then strip (stderr r)
                           else u "未知错误"))
     | Failed e =>
         if isinstance e TimeoutExpired then Ret (false, u "转换超时（60秒）")
         else if isinstance e Exception
              then Ret (false, u "转换异常: " ++ str_of_exception e)
              else Raise e
     end, mkWorld s' c').
Proof.
  intros H md s'.
  unfold convert_file, bind, try_, exists_, absolute, subprocess_run, print, ret,
    stat_st_size.
  unfold convert_event, convert_cmd, convert_wd in *. fold md in H, s' |- *.
  destruct (stat_in (sys w) md) as [n0|]; cbn [sys console set_sys];
    rewrite H; fold s';
    (destruct o as [r|e];
     [ destruct (returncode r =? 0)%Z eqn:E0;
       [ destruct (stat_in s' md) as [n|] eqn:E1;
         [ destruct (0 <? size_of n)%N eqn:E2 | ] | ];
       repeat (cbn [sys console set_sys]; rewrite ?E0, ?E1, ?E2);
       eexists; reflexivity
     | cbn [dispatch existsb orb raise ret];
       destruct (isinstance e TimeoutExpired); cbn [orb];
       [ eexists; reflexivity | ];
       destruct (isinstance e Exception); cbn [orb];
       eexists; reflexivity ]).
Qed.

Lemma abs_parts_cwd s1 s2 p : cwd s1 = cwd s2 -> abs_parts s1 p = abs_parts s2 p.
Proof. unfold abs_parts. intros ->. reflexivity. Qed.

Lemma convert_event_cwd self s1 s2 f :
  cwd s1 = cwd s2 -> convert_event self s1 f = convert_event self s2 f.
Proof.
  intros H. unfold convert_event, convert_cmd.
  rewrite (abs_parts_cwd s1 s2 _ H), (abs_parts_cwd s1 s2 f H). reflexivity.
Qed.

(** Whatever happens, [convert_file] starts exactly one subprocess, and
    the file system afterwards is the one the converter left. *)
Lemma convert_file_sys self word_file w :
  sys (snd (convert_file rp self word_file w)) =
  with_root
    (snd (rp (sys w) (convert_cmd self word_file (sys w)) (convert_wd self) 60%N))
    (log (convert_event self (sys w) word_file) (sys w)).
Proof.
  destruct (rp (sys w) (convert_cmd self word_file (sys w)) (convert_wd self) 60%N)
    as [o r'] eqn:E.
  destruct (convert_file_run self word_file w o r' E) as [c' ->]. reflexivity.
Qed.

(** With a converter that only raises errors [convert_file] returns. *)
Lemma convert_file_total self word_file w :
  raises_only_errors rp ->
  exists r w', convert_file rp self word_file w = (Ret r, w').
Proof.
  intros Hrp.
  destruct (rp (sys w) (convert_cmd self word_file (sys w)) (convert_wd self) 60%N)
    as [o r'] eqn:E.
  destruct (convert_file_run self word_file w o r' E) as [c' ->].
  destruct o as [r|e].
  - destruct (returncode r =? 0)%Z; [|eauto].
    destruct (stat_in _ _); [|eauto]. destruct (0 <? _)%N; eauto.
  - rewrite (Hrp _ _ _ _ _ _ E). destruct (isinstance e TimeoutExpired); eauto.
Qed.

(** What is raised and is not an error -- an interrupt -- is not handled:
    it leaves [convert_file] as it came. *)
Lemma convert_file_passes_interrupt self word_file w e r' :
  rp (sys w) (convert_cmd self word_file (sys w)) (convert_wd self) 60%N
    = (Failed e, r') ->
  isinstance e Exception = false ->
  fst (convert_file rp self word_file w) = Raise e.
Proof.
  intros H He.
  destruct (convert_file_run self word_file w _ r' H) as [c' E]. rewrite E.
  assert (Ht : isinstance e TimeoutExpired = false).
  { destruct e as [[] msg|code]; try reflexivity; discriminate. }
  rewrite Ht, He. reflexivity.
Qed.

(** *** The loop of [convert_all] *)

Lemma convert_step_run self total i f st w :
  exists w',
    sys w' = sys (snd (convert_file rp self f w))
    /\ convert_step rp self total (i, f) st w =
       (match fst (convert_file rp self f w) with
        | Ret r => Ret (tally st (f, r))
        | Raise e => Raise e
        end, w').
Proof.
  destruct st as [[sc fc] errs].
  unfold convert_step. unfold bind at 1. unfold print at 1.
  set (w1 := {| sys := sys w; console := _ |}).
  assert (Hw : sys w1 = sys w) by reflexivity.
  destruct (blind_convert_file self f w1 w Hw) as [Hv Hs].
  unfold bind at 1.
  destruct (convert_file rp self f w1) as [[[b msg]|e] w2];
    cbn [fst snd] in Hv, Hs; rewrite <- Hv, <- Hs.
  - unfold bind, print, ret. cbn [sys console].
    eexists. split; [|unfold tally, succeeded, error_entry; cbn [fst snd];
                      destruct b; reflexivity].
    reflexivity.
  - eexists. split; reflexivity.
Qed.

(** The loop computes the tally of the per-file results. *)
Lemma for_each_convert_step self total files : forall k st w1 w2,
  sys w1 = sys w2 ->
  fst (for_each (enumerate files k) (convert_step rp self total) st w1) =
    match fst (convert_each rp self files w2) with
    | Ret rs => Ret (fold_left tally (combine files rs) st)
    | Raise e => Raise e
    end
  /\ sys (snd (for_each (enumerate files k) (convert_step rp self total) st w1)) =
     sys (snd (convert_each rp self files w2)).
Proof.
  induction files as [|f files IH]; intros k st w1 w2 Hw;
    cbn [enumerate for_each convert_each].
  - simpl. auto.
  - destruct (convert_step_run self total k f st w1) as [w1' [Hs1 E1]].
    destruct (blind_convert_file self f w1 w2 Hw) as [Hv Hs].
    rewrite Hs in Hs1. rewrite Hv in E1.
    destruct (convert_file rp self f w2) as [[r|e] w2'] eqn:E2; cbn [fst snd] in *.
    + rewrite (bind_Ret _ _ _ _ _ E1), (bind_Ret _ _ _ _ _ E2).
      specialize (IH (k + 1)%N (tally st (f, r)) w1' w2' Hs1).
      destruct IH as [IHv IHs]. rewrite IHv, IHs. unfold bind.
      destruct (convert_each rp self files w2') as [[rs|e] w3]; simpl; auto.
    + rewrite (bind_Raise _ _ _ _ _ E1), (bind_Raise _ _ _ _ _ E2). simpl. auto.
Qed.

Lemma convert_each_length self files : forall w rs w',
  convert_each rp self files w = (Ret rs, w') -> length rs = length files.
Proof.
  induction files as [|f files IH]; intros w rs w' H; simpl in H.
  - inversion H. reflexivity.
  - unfold bind in H.
    destruct (convert_file rp self f w) as [[r|e] w1]; [|discriminate].
    destruct (convert_each rp self files w1) as [[rs1|e] w2] eqn:E; [|discriminate].
    inversion H; subst. simpl. f_equal. eapply IH; eauto.
Qed.

(** One conversion is started for each file, in order, whether or not
    earlier ones failed. *)
Lemma convert_each_events self files : forall w rs w',
  convert_each rp self files w = (Ret rs, w') ->
  cwd (sys w') = cwd (sys w)
  /\ events (sys w') = events (sys w) ++ map (convert_event self (sys w)) files.
Proof.
  induction files as [|f files IH]; intros w rs w' H; simpl in H.
  - inversion H; subst. simpl. rewrite app_nil_r. auto.
  - unfold bind in H. pose proof (convert_file_sys self f w) as Hs.
    destruct (convert_file rp self f w) as [[r|e] w1]; [|discriminate].
    destruct (convert_each rp self files w1) as [[rs1|e] w2] eqn:E; [|discriminate].
    inversion H; subst. cbn [snd] in Hs.
    destruct (IH _ _ _ E) as [Hc He].
    assert (Hc1 : cwd (sys w1) = cwd (sys w)) by (rewrite Hs; reflexivity).
    split; [congruence|].
    rewrite He, Hs. cbn [events with_root log map]. rewrite <- app_assoc.
    cbn [app]. reflexivity.
Qed.

Lemma convert_each_total self files :
  raises_only_errors rp ->
  forall w, exists rs w', convert_each rp self files w = (Ret rs, w').
Proof.
  intros Hrp. induction files as [|f files IH]; intros w; simpl.
  - do 2 eexists. reflexivity.
  - destruct (convert_file_total self f w Hrp) as [r [w1 E1]].
    destruct (IH w1) as [rs [w2 E2]].
    unfold bind. rewrite E1, E2. do 2 eexists. reflexivity.
Qed.

Lemma tally_fold rs : forall sc fc errs,
  fold_left tally rs (sc, fc, errs) =
  ((sc + N.of_nat (length (filter succeeded rs)))%N,
   (fc + N.of_nat (length (filter failed rs)))%N,
   errs ++ map error_entry (filter failed rs)).
Proof.
  induction rs as [|a rs IH]; intros sc fc errs.
  - simpl. rewrite !N.add_0_r, app_nil_r. reflexivity.
  - destruct a as [f [[|] msg]]; cbn [fold_left tally succeeded fst snd];
      rewrite IH; cbn [filter succeeded failed negb fst snd length map].
    + apply f_equal2; [apply f_equal2|]; try reflexivity. lia.
    + rewrite <- app_assoc.
      apply f_equal2; [apply f_equal2|]; try reflexivity. lia.
Qed.

Lemma succeeded_failed_length (rs : list (Path * (bool * str))) :
  length (filter succeeded rs) + length (filter failed rs) = length rs.
Proof.
  induction rs as [|[f [[|] msg]] rs IH]; simpl; [reflexivity| |];
    unfold failed, succeeded in *; simpl; lia.
Qed.

(** *** [convert_all] *)

Lemma convert_all_run self w files w0 :
  find_word_files self w = (Ret files, w0) ->
  fst (convert_all rp self w) =
    match fst (convert_each rp self files w0) with
    | Ret rs => Ret (fold_left tally (combine files rs) (0%N, 0%N, []))
    | Raise e => Raise e
    end
  /\ sys (snd (convert_all rp self w)) = sys (snd (convert_each rp self files w0)).
Proof.
  intros H. unfold convert_all. rewrite (bind_Ret _ _ _ _ _ H).
  destruct files as [|f files].
  - simpl. auto.
  - cbn [is_nil]. unfold bind at 1 2 3 4 5, print. cbn [sys console].
    apply for_each_convert_step. reflexivity.
Qed.

(** *** Printing *)

Lemma for_each_print {A} (l : list A) (line : A -> str) : forall w,
  exists c', for_each l (fun x _ => print (line x)) tt w = (Ret tt, mkWorld (sys w) c').
Proof.
  induction l as [|x l IH]; intros w; simpl.
  - exists (console w). destruct w. reflexivity.
  - unfold bind, print at 1. destruct (IH (mkWorld (sys w) (console w ++ [line x])))
      as [c' E]. rewrite E. eauto.
Qed.

Lemma print_summary_run self sc fc errs w :
  exists c', print_summary self sc fc errs w = (Ret tt, mkWorld (sys w) c').
Proof.
  unfold print_summary, bind, print, absolute, ret. cbn [sys console].
  destruct (is_nil errs); cbn [negb].
  - eexists. reflexivity.
  - cbn [sys console].
    match goal with |- context [for_each errs _ tt ?w] =>
      destruct (for_each_print errs (fun error => u "  ✗ " ++ error) w) as [c' E] end.
    unfold print in E. rewrite E. cbn [sys console]. eexists. reflexivity.
Qed.

Lemma bind_print {B} line (k : unit -> M B) w :
  bind (print line) k w = k tt {| sys := sys w; console := console w ++ [line] |}.
Proof. reflexivity. Qed.

(** *** The constructor *)

Lemma init_run i o w :
  let self := {| input_dir := Path_of_str i; output_dir := Path_of_str o |} in
  let s := log (EvMkdir (Path_of_str o)) (sys w) in
  Word2Markdown_init i o w =
  match makedirs (root (sys w)) (abs_parts (sys w) (Path_of_str o)) with
  | Ret r => (Ret self, set_sys (with_root r s) w)
  | Raise e => (Raise e, set_sys s w)
  end.
Proof.
  unfold Word2Markdown_init, bind, mkdir_p, ret. cbn.
  destruct (makedirs _ _); reflexivity.
Qed.

(** *** [main] *)

(** The run of [main], stage by stage: the constructor, the tool check,
    then either the listing of [--check] or the batch and its summary. *)
Lemma main_run args w :
  match Word2Markdown_init (input args) (output args) w with
  | (Raise e, w1) => main rp args w = (Raise e, w1)
  | (Ret self, w1) =>
      exists w1', sys w1' = sys w1 /\
      match check_pandoc rp self w1' with
      | (Raise e, w2) => main rp args w = (Raise e, w2)
      | (Ret false, w2) =>
          exists w', sys w' = sys w2 /\ main rp args w = (Raise (SystemExit 1), w')
      | (Ret true, w2) =>
          if check args then
            exists w', sys w' = sys (snd (find_word_files self w2))
                       /\ main rp args w = (Raise (SystemExit 0), w')
          else
            match convert_all rp self w2 with
            | (Raise e, w3) => main rp args w = (Raise e, w3)
            | (Ret (_, fail_count, _), w3) =>
                exists w', sys w' = sys w3 /\
                  main rp args w =
                  (Raise (SystemExit (if (fail_count =? 0)%N then 0 else 1)), w')
            end
      end
  end.
Proof.
  unfold main.
  destruct (Word2Markdown_init (input args) (output args) w) as [[self|e] w1] eqn:E0.
  2: { apply (bind_Raise _ _ _ _ _ E0). }
  rewrite (bind_Ret _ _ _ _ _ E0), !bind_print.
  match goal with |- context [bind (check_pandoc rp self) _ ?w0] =>
    exists w0; split; [reflexivity|]; set (w1' := w0) end.
  destruct (check_pandoc rp self w1') as [[[|]|e] w2] eqn:E1.
  3: { apply (bind_Raise _ _ _ _ _ E1). }
  - rewrite (bind_Ret _ _ _ _ _ E1). cbn [negb].
    destruct (check args).
    + destruct (find_word_files_run self w2) as [c0 E2].
      destruct (find_word_files self w2) as [[files|e] w3] eqn:E3.
      2: { destruct (stat_in (sys w2) (input_dir self)) as [[|]|]; discriminate. }
      rewrite (bind_Ret _ _ _ _ _ E3). cbn [snd].
      destruct (is_nil files); cbn [negb].
      * eexists. split; [|reflexivity]. reflexivity.
      * unfold bind at 1. rewrite bind_print.
        match goal with |- context [for_each files _ tt ?w0] =>
          destruct (for_each_print files (fun p => u "  - " ++ name p) w0) as [c' E4] end.
        rewrite E4.
        eexists. split; [|reflexivity]. reflexivity.
    + destruct (convert_all rp self w2) as [[[[sc fc] errs]|e] w3] eqn:E2.
      2: { apply (bind_Raise _ _ _ _ _ E2). }
      rewrite (bind_Ret _ _ _ _ _ E2).
      destruct (print_summary_run self sc fc errs w3) as [c' E3].
      rewrite (bind_Ret _ _ _ _ _ E3).
      eexists. split; [|reflexivity]. reflexivity.
  - rewrite (bind_Ret _ _ _ _ _ E1). cbn [negb].
    rewrite !bind_print. eexists. split; [|reflexivity]. reflexivity.
Qed.

(** *** The history only grows *)





Lemma init_events i o w :
  events (sys (snd (Word2Markdown_init i o w))) =
  events (sys w) ++ [EvMkdir (Path_of_str o)].
Proof.
  rewrite init_run. destruct (makedirs _ _); reflexivity.
Qed.


(** ** The batch *)

(** What [convert_all] returns, in terms of the per-file results. *)
Lemma convert_all_returns self w files w0 sc fc errs w' :
  find_word_files self w = (Ret files, w0) ->
  convert_all rp self w = (Ret (sc, fc, errs), w') ->
  exists rs,
    fst (convert_each rp self files w0) = Ret rs
    /\ length rs = length files
    /\ sc = N.of_nat (length (filter succeeded (combine files rs)))
    /\ fc = N.of_nat (length (filter failed (combine files rs)))
    /\ errs = map error_entry (filter failed (combine files rs)).
Proof.
  intros Hf Hc. destruct (convert_all_run self w files w0 Hf) as [Hv _].
  rewrite Hc in Hv. cbn [fst] in Hv.
  destruct (convert_each rp self files w0) as [[rs|e] w1] eqn:E;
    cbn [fst] in *; [|discriminate].
  exists rs. rewrite tally_fold in Hv. inversion Hv; subst.
  repeat split; try reflexivity. eapply convert_each_length; eauto.
Qed.

Lemma convert_all_total self w :
  raises_only_errors rp ->
  exists sc fc errs w', convert_all rp self w = (Ret (sc, fc, errs), w').
Proof.
  intros Hrp. destruct (find_word_files_returns self w) as [files [w0 [Hf _]]].
  destruct (convert_all_run self w files w0 Hf) as [Hv _].
  destruct (convert_each_total self files Hrp w0) as [rs [w1 E]].
  rewrite E in Hv. cbn [fst] in Hv.
  destruct (convert_all rp self w) as [[[[sc fc] errs]|e] w'];
    cbn [fst] in Hv; [|discriminate].
  eauto.
Qed.

(** C1.  Whenever [convert_all] returns, the success count plus the
    failure count is the number of files [find_word_files] discovered:
    every discovered file has one result, counted as a success or as a
    failure and never as both.  With a converter that only raises errors
    [convert_all] always returns. *)
Theorem convert_all_counts self w files w0 :
  find_word_files self w = (Ret files, w0) ->
  (forall sc fc errs w',
      convert_all rp self w = (Ret (sc, fc, errs), w') ->
      (sc + fc)%N = N.of_nat (length files)
      /\ exists rs,
           fst (convert_each rp self files w0) = Ret rs
           /\ length rs = length files
           /\ sc = N.of_nat (length (filter succeeded (combine files rs)))
           /\ fc = N.of_nat (length (filter failed (combine files rs))))
  /\ (raises_only_errors rp ->
      exists sc fc errs w', convert_all rp self w = (Ret (sc, fc, errs), w')).
Proof.
  intros Hf. split; [|apply convert_all_total].
  intros sc fc errs w' Hc.
  destruct (convert_all_returns _ _ _ _ _ _ _ _ Hf Hc) as [rs [E [L [Hs [Hfc _]]]]].
  split; [|eauto].
  subst sc fc. rewrite <- Nat2N.inj_add, succeeded_failed_length.
  rewrite length_combine, L, Nat.min_id. reflexivity.
Qed.

(** C9.  Whenever [convert_all] returns, the list of errors is as long
    as the failure count, and it is, in the order in which the files were
    processed, the entry ["<name>: <message>"] of each file whose
    [convert_file] result was a failure; files that succeeded have no
    entry.  With a converter that only raises errors [convert_all] always
    returns. *)
Theorem convert_all_errors self w files w0 :
  find_word_files self w = (Ret files, w0) ->
  (forall sc fc errs w',
      convert_all rp self w = (Ret (sc, fc, errs), w') ->
      N.of_nat (length errs) = fc
      /\ exists rs,
           fst (convert_each rp self files w0) = Ret rs
           /\ length rs = length files
           /\ errs = map (fun a => name (fst a) ++ u ": " ++ snd (snd a))
                         (filter (fun a => negb (fst (snd a))) (combine files rs)))
  /\ (raises_only_errors rp ->
      exists sc fc errs w', convert_all rp self w = (Ret (sc, fc, errs), w')).
Proof.
  intros Hf. split; [|apply convert_all_total].
  intros sc fc errs w' Hc.
  destruct (convert_all_returns _ _ _ _ _ _ _ _ Hf Hc) as [rs [E [L [_ [Hfc He]]]]].
  split.
  - subst fc errs. rewrite length_map. reflexivity.
  - exists rs. repeat split; assumption.
Qed.

(** ** One conversion *)

(** C3.  [convert_file] reports success exactly when the converter
    completed with return code zero and the derived output path then
    exists with a size greater than zero.  When it completed with return
    code zero and the output is missing or has size zero, the result is a
    failure whose message is the output-is-empty text followed by the
    output name; that message contains the text and is never a
    process-error message. *)
Theorem convert_file_success_iff self word_file w o r' :
  rp (sys w) (convert_cmd self word_file (sys w)) (convert_wd self) 60%N = (o, r') ->
  let md := markdown_file_of self word_file in
  let s' := with_root r' (log (convert_event self (sys w) word_file) (sys w)) in
  ((exists msg w', convert_file rp self word_file w = (Ret (true, msg), w'))
   <-> (exists r n, o = Completed r /\ returncode r = 0%Z
                    /\ stat_in s' md = Some n /\ (0 < size_of n)%N))
  /\ (forall r, o = Completed r -> returncode r = 0%Z ->
        (stat_in s' md = None
         \/ exists n, stat_in s' md = Some n /\ size_of n = 0%N) ->
        exists w',
          convert_file rp self word_file w =
          (Ret (false, u "输出文件为空: " ++ name md), w'))
  /\ contains (u "输出文件为空") (u "输出文件为空: " ++ name md) = true
  /\ (forall error_msg,
        u "输出文件为空: " ++ name md <> u "转换失败: " ++ error_msg).
Proof.
  intros H md s'.
  destruct (convert_file_run self word_file w o r' H) as [c' E].
  fold md s' in E. rewrite E. clear E.
  split; [split|split; [|split]].
  - intros [msg [w' Hr]]. destruct o as [r|e].
    + destruct (returncode r =? 0)%Z eqn:E0; [|inversion Hr].
      destruct (stat_in s' md) as [n|] eqn:E1; [|inversion Hr].
      destruct (0 <? size_of n)%N eqn:E2; [|inversion Hr].
      exists r, n. repeat split.
      * apply Z.eqb_eq. exact E0.
      * apply N.ltb_lt. exact E2.
    + destruct (isinstance e TimeoutExpired); [inversion Hr|].
      destruct (isinstance e Exception); inversion Hr.
  - intros [r [n [-> [Hrc [Hst Hsz]]]]].
    apply Z.eqb_eq in Hrc. apply N.ltb_lt in Hsz.
    rewrite Hrc, Hst, Hsz. eauto.
  - intros r -> Hrc Hout. apply Z.eqb_eq in Hrc. rewrite Hrc.
    destruct Hout as [-> | [n [-> Hsz]]]; [eauto|].
    rewrite Hsz. cbn. eauto.
  - apply (contains_app [] (u "输出文件为空") (u ": " ++ name md)).
  - generalize (name md). intros nm error_msg Hm.
    apply (f_equal (hd 0%N)) in Hm. vm_compute in Hm. discriminate Hm.
Qed.

(** C4, as the code has it.  When the converter completes with a return
    code other than zero, [convert_file] returns a failure whose message
    is the conversion-failed text followed by the error text: the
    captured standard error with leading and trailing white space
    removed, or the unknown-error text when standard error is empty.  The
    message contains that error text, and the turn of the loop of
    [convert_all] for that file adds one to the failure count and appends
    the entry ["<name>: 转换失败: <error text>"]. *)
Theorem convert_file_process_error self word_file w r r' :
  rp (sys w) (convert_cmd self word_file (sys w)) (convert_wd self) 60%N
    = (Completed r, r') ->
  returncode r <> 0%Z ->
  let error_msg := if negb (is_nil (stderr r)) then strip (stderr r)
                   else u "未知错误" in
  (exists w', convert_file rp self word_file w
              = (Ret (false, u "转换失败: " ++ error_msg), w'))
  /\ contains error_msg (u "转换失败: " ++ error_msg) = true
  /\ (stderr r = [] -> error_msg = u "未知错误")
  /\ (stderr r <> [] -> error_msg = strip (stderr r))
  /\ (forall total i sc fc errors,
        fst (convert_step rp self total (i, word_file) (sc, fc, errors) w) =
        Ret (sc, (fc + 1)%N,
             errors ++ [name word_file ++ u ": " ++ u "转换失败: " ++ error_msg])).
Proof.
  intros H Hrc error_msg.
  destruct (convert_file_run self word_file w _ r' H) as [c' E].
  apply Z.eqb_neq in Hrc. rewrite Hrc in E. fold error_msg in E.
  split; [eauto|]. split; [apply contains_suffix|].
  split; [intros Hs; unfold error_msg; rewrite Hs; reflexivity|].
  split; [intros Hs; unfold error_msg; destruct (stderr r); [congruence|reflexivity]|].
  intros total i sc fc errors.
  destruct (convert_step_run self total i word_file (sc, fc, errors) w)
    as [w' [_ Es]].
  rewrite Es, E. reflexivity.
Qed.

(** ** Discovery *)

(** C6.  On an input directory that exists, [find_word_files] returns
    the paths of exactly those of its entries whose names end with
    [.docx], compared case-sensitively, in scan order; only the
    directory's own entries are looked at.  In a directory holding
    [a.docx], [b.txt], [c.DOCX] and a subdirectory with [x.docx] it
    returns [a.docx] alone. *)
Theorem find_word_files_lists_docx self w sz es :
  stat_in (sys w) (input_dir self) = Some (Dir sz es) ->
  (exists w',
      find_word_files self w =
      (Ret (map (make_child (input_dir self))
                (filter has_docx_extension (map fst es))), w'))
  /\ (forall nm, has_docx_extension nm = true
                 <-> exists base, nm = base ++ u ".docx")
  /\ fst (find_word_files converter_io mixed_world)
     = Ret [Path_of_str (u "input/a.docx")].
Proof.
  intros H. split; [|split].
  - destruct (find_word_files_run self w) as [c' E]. rewrite H in E.
    rewrite E. rewrite (filter_ext _ _ glob_pattern_docx). eauto.
  - intros nm. apply endswith_iff.
  - vm_compute. reflexivity.
Qed.


(** ** The tool check *)

(** C8, as the code has it.  [check_pandoc] returns true only if the
    version probe, run under a time limit of 5 seconds, completed with
    return code zero, and it does return true then when the probe's
    output has a second word.  It returns false when the probe completes
    with another return code, when the program is not found
    ([FileNotFoundError]) and when the probe times out
    ([TimeoutExpired]); any other exception of the invocation leaves
    [check_pandoc] unhandled.  In every case the only effect on the system
    is the one subprocess; on the console, one line when the result is
    true and nothing otherwise. *)
Theorem check_pandoc_spec self w o r' :
  rp (sys w) VERSION_PROBE None 5%N = (o, r') ->
  let s' := with_root r' (log (EvSpawn VERSION_PROBE None 5) (sys w)) in
  sys (snd (check_pandoc rp self w)) = s'
  /\ (fst (check_pandoc rp self w) = Ret true ->
      exists r, o = Completed r /\ returncode r = 0%Z)
  /\ (forall r, o = Completed r -> returncode r = 0%Z ->
        (2 <= length (split (stdout r)))%nat ->
        fst (check_pandoc rp self w) = Ret true)
  /\ (forall r, o = Completed r -> returncode r <> 0%Z ->
        fst (check_pandoc rp self w) = Ret false)
  /\ (forall e, o = Failed e ->
        isinstance e FileNotFoundError = true \/ isinstance e TimeoutExpired = true ->
        fst (check_pandoc rp self w) = Ret false)
  /\ (forall e, o = Failed e ->
        isinstance e FileNotFoundError = false ->
        isinstance e TimeoutExpired = false ->
        fst (check_pandoc rp self w) = Raise e)
  /\ match fst (check_pandoc rp self w) with
     | Ret true =>
         exists version,
           console (snd (check_pandoc rp self w))
           = console w ++ [u "✓ 找到pandoc: " ++ version]
     | _ => console (snd (check_pandoc rp self w)) = console w
     end.
Proof.
  intros H s'. pose proof (check_pandoc_console self w) as Hcon.
  destruct (check_pandoc_run self w o r' H) as [c' E].
  rewrite E in Hcon |- *. cbn [fst snd sys] in Hcon |- *.
  split; [reflexivity|].
  split; [|split; [|split; [|split; [|split; [|exact Hcon]]]]]; clear Hcon.
  - intros Ht. destruct o as [r|e].
    + exists r. split; [reflexivity|].
      destruct (returncode r =? 0)%Z eqn:E0; [apply Z.eqb_eq; exact E0|discriminate].
    + destruct (_ || _); discriminate.
  - intros r -> Hrc Hlen. apply Z.eqb_eq in Hrc. rewrite Hrc.
    destruct (nth_error (split (stdout r)) 1) eqn:En; [reflexivity|].
    apply nth_error_None in En. lia.
  - intros r -> Hrc. apply Z.eqb_neq in Hrc. rewrite Hrc. reflexivity.
  - intros e -> [He | He]; rewrite He; [|rewrite orb_true_r]; reflexivity.
  - intros e -> H1 H2. rewrite H1, H2. reflexivity.
Qed.

(** ** The program *)

Lemma spawned_log_spawn s args wd t :
  spawned (log (EvSpawn args wd t) s) = spawned s ++ [EvSpawn args wd t].
Proof. unfold spawned. cbn. rewrite filter_app. reflexivity. Qed.


(** *** The output directory stays *)








End Properties.

(** * Scenarios *)

(** ** The model on examples *)

Example u_ascii : u "a.docx" = [97; 46; 100; 111; 99; 120]%N.
Proof. reflexivity. Qed.

Example u_cjk : u "转换" = [36716; 25442]%N.
Proof. reflexivity. Qed.

Example strip_example : strip (u "  bad format" ++ LF) = u "bad format".
Proof. reflexivity. Qed.

Example split_example :
  split pandoc_version_text =
  [u "pandoc"; u "2.9.2.1"; u "Compiled"; u "with"; u "pandoc-types"; u "1.20"].
Proof. reflexivity. Qed.

Example comma_example :
  of_int_comma 1234567 = u "1,234,567" /\ of_int_comma 999 = u "999"
  /\ of_int_comma 1000 = u "1,000" /\ of_int_comma 0 = u "0".
Proof. repeat split; reflexivity. Qed.

Example stem_example :
  stem (Path_of_str (u "input/report.docx")) = u "report"
  /\ stem (Path_of_str (u "a.b.docx")) = u "a.b"
  /\ stem (Path_of_str (u ".docx")) = u ".docx".
Proof. repeat split; reflexivity. Qed.

Example path_example :
  str_of_Path (Path_of_str (u "docs//word/./x")) = u "docs/word/x"
  /\ str_of_Path (Path_of_str (u "/out/")) = u "/out"
  /\ str_of_Path (Path_of_str []) = u ".".
Proof. repeat split; reflexivity. Qed.

Example isinstance_example :
  isinstance (Exc PermissionError []) OSError = true
  /\ isinstance (Exc PermissionError []) FileNotFoundError = false
  /\ isinstance (Exc TimeoutExpired []) Exception = true
  /\ isinstance (Exc KeyboardInterrupt []) Exception = false
  /\ isinstance (SystemExit 1) Exception = false.
Proof. repeat split; reflexivity. Qed.

(** Two inputs, a converter that always writes a non-empty output: both
    succeed and both outputs exist afterwards. *)
Example convert_all_two_successes :
  let w := world_of (Dir 4096 [(u "home", Dir 4096
             [(u "input", Dir 4096 [(u "report.docx", File 2048);
                                    (u "notes.docx", File 512)]);
              (u "out", Dir 4096 [])])]) in
  let run := convert_all (writing_pandoc 100) converter_io w in
  fst run = Ret (2%N, 0%N, [])
  /\ stat_in (sys (snd run)) (Path_of_str (u "out/report.md")) = Some (File 100)
  /\ stat_in (sys (snd run)) (Path_of_str (u "out/notes.md")) = Some (File 100).
Proof. vm_compute. repeat split; reflexivity. Qed.

(** One input, a converter that exits with 1 and [bad format] on its
    error stream. *)
Example convert_all_bad_format :
  fst (convert_all (failing_pandoc (u "bad format")) converter_io report_world)
  = Ret (0%N, 1%N, [u "report.docx: 转换失败: bad format"]).
Proof. vm_compute. reflexivity. Qed.

(** A converter that writes a zero-byte output. *)
Example convert_file_empty_output :
  fst (convert_file (writing_pandoc 0) converter_io
         (Path_of_str (u "input/report.docx")) report_world)
  = Ret (false, u "输出文件为空: report.md").
Proof. vm_compute. reflexivity. Qed.

Example main_exit_codes :
  fst (main (writing_pandoc 100) (args_io false) report_world) = Raise (SystemExit 0)
  /\ fst (main (failing_pandoc (u "bad format")) (args_io false) report_world)
     = Raise (SystemExit 1)
  /\ fst (main (failing_pandoc (u "bad format")) (args_io true) report_world)
     = Raise (SystemExit 0)
  /\ fst (main (broken_pandoc (Exc FileNotFoundError [])) (args_io false) report_world)
     = Raise (SystemExit 1).
Proof. vm_compute. repeat split; reflexivity. Qed.

(** ** The stub converters only raise errors *)

Lemma failing_pandoc_errors err : raises_only_errors (failing_pandoc err).
Proof.
  intros s args wd t e r'. unfold failing_pandoc.
  destruct (list_eq_dec (list_eq_dec N.eq_dec) args VERSION_PROBE); discriminate.
Qed.

Lemma writing_pandoc_errors size : raises_only_errors (writing_pandoc size).
Proof.
  intros s args wd t e r'. unfold writing_pandoc.
  destruct (list_eq_dec (list_eq_dec N.eq_dec) args VERSION_PROBE); [discriminate|].
  destruct (output_arg args); discriminate.
Qed.


Lemma broken_pandoc_errors e :
  isinstance e Exception = true -> raises_only_errors (broken_pandoc e).
Proof.
  intros He s args wd t e' r'. unfold broken_pandoc. intros H.
  inversion H; subst. exact He.
Qed.

(** ** The theorems at concrete inputs *)

(** C1 on one input and a converter that fails it. *)
Lemma convert_all_counts_witness :
  let rp := failing_pandoc (u "bad format") in
  exists sc fc errs w',
    convert_all rp converter_io report_world = (Ret (sc, fc, errs), w')
    /\ (sc + fc)%N = 1%N.
Proof.
  intros rp.
  assert (E : find_word_files converter_io report_world
              = (Ret [report_docx], snd (find_word_files converter_io report_world)))
    by (vm_compute; reflexivity).
  destruct (convert_all_counts rp converter_io report_world _ _ E) as [H1 H2].
  destruct (H2 (failing_pandoc_errors _)) as [sc [fc [errs [w' Hc]]]].
  exists sc, fc, errs, w'. split; [exact Hc|].
  exact (proj1 (H1 sc fc errs w' Hc)).
Defined.

(** C9 on the same run. *)
Lemma convert_all_errors_witness :
  let rp := failing_pandoc (u "bad format") in
  exists sc fc errs w',
    convert_all rp converter_io report_world = (Ret (sc, fc, errs), w')
    /\ N.of_nat (length errs) = fc.
Proof.
  intros rp.
  assert (E : find_word_files converter_io report_world
              = (Ret [report_docx], snd (find_word_files converter_io report_world)))
    by (vm_compute; reflexivity).
  destruct (convert_all_errors rp converter_io report_world _ _ E) as [H1 H2].
  destruct (H2 (failing_pandoc_errors _)) as [sc [fc [errs [w' Hc]]]].
  exists sc, fc, errs, w'. split; [exact Hc|].
  exact (proj1 (H1 sc fc errs w' Hc)).
Defined.

(** C3 with a converter that writes 100 bytes. *)
Lemma convert_file_success_iff_witness :
  exists msg w',
    convert_file (writing_pandoc 100) converter_io report_docx report_world
    = (Ret (true, msg), w').
Proof.
  pose (rp := writing_pandoc 100).
  pose (run := rp (sys report_world)
                 (convert_cmd converter_io report_docx (sys report_world))
                 (convert_wd converter_io) 60%N).
  assert (E : run = (Completed (mkCompleted 0 [] []), snd run))
    by (vm_compute; reflexivity).
  destruct (convert_file_success_iff rp converter_io report_docx report_world _ _ E)
    as [[_ H] _].
  apply H. exists (mkCompleted 0 [] []), (File 100).
  repeat split; vm_compute; reflexivity.
Defined.

(** C4, as the code has it, on the error text [bad format]. *)
Lemma convert_file_process_error_witness :
  exists w',
    convert_file (failing_pandoc (u "bad format")) converter_io report_docx
      report_world
    = (Ret (false, u "转换失败: bad format"), w').
Proof.
  pose (rp := failing_pandoc (u "bad format")).
  pose (run := rp (sys report_world)
                 (convert_cmd converter_io report_docx (sys report_world))
                 (convert_wd converter_io) 60%N).
  assert (E : run = (Completed (mkCompleted 1 [] (u "bad format")), snd run))
    by (vm_compute; reflexivity).
  assert (Hrc : returncode (mkCompleted 1 [] (u "bad format")) <> 0%Z)
    by discriminate.
  destruct (convert_file_process_error rp converter_io report_docx report_world
              _ _ E Hrc) as [[w' Hw] _].
  exists w'. fold rp. rewrite Hw. vm_compute. reflexivity.
Defined.

(** C4 with the text verbatim fails: the converter ends its error text with a line
    feed, as command-line programs do; it exits with 1, and the failure
    message does not contain the captured text. *)
Lemma stderr_verbatim_counterexample :
  let err := u "bad format" ++ LF in
  let rp := failing_pandoc err in
  rp (sys report_world) (convert_cmd converter_io report_docx (sys report_world))
     (convert_wd converter_io) 60%N
  = (Completed {| returncode := 1; stdout := []; stderr := err |},
     root (sys report_world))
  /\ fst (convert_file rp converter_io report_docx report_world)
     = Ret (false, u "转换失败: bad format")
  /\ contains err (u "转换失败: bad format") = false
  /\ fst (convert_all rp converter_io report_world)
     = Ret (0%N, 1%N, [u "report.docx: 转换失败: bad format"]).
Proof. vm_compute. repeat split; reflexivity. Qed.

(** C6 on the directory with [a.docx], [b.txt], [c.DOCX] and [sub/x.docx]. *)
Lemma find_word_files_lists_docx_witness :
  exists w',
    find_word_files converter_io mixed_world
    = (Ret [make_child (input_dir converter_io) (u "a.docx")], w').
Proof.
  assert (E : stat_in (sys mixed_world) (input_dir converter_io)
              = Some (Dir 4096
                   [(u "a.docx", File 10); (u "b.txt", File 3); (u "c.DOCX", File 7);
                    (u "sub", Dir 4096 [(u "x.docx", File 1)])]))
    by (vm_compute; reflexivity).
  destruct (find_word_files_lists_docx converter_io mixed_world _ _ E)
    as [[w' Hw] _].
  exists w'. rewrite Hw. vm_compute. reflexivity.
Defined.


(** C8, as the code has it, where the program is not on the search path. *)
Lemma check_pandoc_spec_witness :
  let e := Exc FileNotFoundError (u "[Errno 2] No such file or directory: 'pandoc'") in
  fst (check_pandoc (broken_pandoc e) converter_io report_world) = Ret false.
Proof.
  intros e.
  destruct (check_pandoc_spec (broken_pandoc e) converter_io report_world
              (Failed e) (root (sys report_world)) eq_refl)
    as [_ [_ [_ [_ [H _]]]]].
  exact (H e eq_refl (or_introl eq_refl)).
Defined.

(** C8 without exceptions fails: the program is found but may not be executed;
    the invocation fails, and [check_pandoc] raises instead of returning
    false. *)
Lemma check_pandoc_raises_counterexample :
  let e := Exc PermissionError (u "[Errno 13] Permission denied: 'pandoc'") in
  let rp := broken_pandoc e in
  rp (sys report_world) VERSION_PROBE None 5%N = (Failed e, root (sys report_world))
  /\ fst (check_pandoc rp converter_io report_world) = Raise e
  /\ fst (check_pandoc rp converter_io report_world) <> Ret false
  /\ fst (main rp (args_io false) report_world) = Raise e.
Proof.
  vm_compute. repeat split; try reflexivity. discriminate.
Qed.



(** * Further properties of the script *)

(** ** More on the file system *)

Lemma assoc_app_some k x es l : assoc k es = Some x -> assoc k (es ++ l) = Some x.
Proof.
  induction es as [|[k' y] es IH]; simpl; [discriminate|].
  destruct (Str.eqb k' k); auto.
Qed.

Lemma assoc_replace_other c d x es :
  c <> d -> assoc d (replace c x es) = assoc d es.
Proof.
  intros Hcd. induction es as [|[k' y] es IH]; simpl; [reflexivity|].
  destruct (Str.eqb k' c) eqn:Ec; simpl.
  - apply eqb_eq in Ec. subst k'.
    destruct (Str.eqb c d) eqn:Ed; [apply eqb_eq in Ed; contradiction|reflexivity].
  - destruct (Str.eqb k' d); [reflexivity | exact IH].
Qed.

Lemma assoc_in k es : In k (map fst es) -> exists x, assoc k es = Some x.
Proof.
  induction es as [|[k' y] es IH]; simpl; [contradiction|].
  intros [-> | H].
  - rewrite eqb_refl. eauto.
  - destruct (Str.eqb k' k); eauto.
Qed.

Lemma lookup_app n p q :
  lookup n (p ++ q) =
  match lookup n p with Some x => lookup x q | None => None end.
Proof.
  revert n. induction p as [|c p IH]; intros n; simpl; [reflexivity|].
  destruct n as [|s es]; [reflexivity|].
  destruct (assoc c es); [apply IH | reflexivity].
Qed.

(** [mkdir -p] keeps what is there: a path that was a file is the same
    file afterwards, and a directory is still a directory of the same
    size. *)
Lemma makedirs_keeps p : forall n n',
  makedirs n p = Ret n' ->
  forall q x, lookup n q = Some x ->
  exists x', lookup n' q = Some x'
             /\ match x with
                | File sz => x' = File sz
                | Dir sz _ => exists es', x' = Dir sz es'
                end.
Proof.
  assert (Hk : forall x : node,
    match x with File sz => x = File sz | Dir sz _ => exists es', x = Dir sz es' end).
  { intros [sz|sz es]; eauto. }
  induction p as [|c p IH]; intros n n' H q x Hq; simpl in H.
  - destruct n; inversion H; subst. exists x. split; [exact Hq | apply Hk].
  - destruct n as [|s es]; [discriminate|].
    destruct (assoc c es) as [n1|] eqn:A.
    + destruct (makedirs n1 p) as [n2|e] eqn:Mk; inversion H; subst. clear H.
      destruct q as [|d q]; simpl in Hq |- *.
      * inversion Hq; subst. eauto.
      * destruct (list_eq_dec N.eq_dec c d) as [<-|Hcd].
        -- rewrite A in Hq. rewrite (assoc_replace c n2 n1 es A).
           eapply IH; eauto.
        -- rewrite (assoc_replace_other c d n2 es Hcd).
           destruct (assoc d es); [|discriminate].
           exists x. split; [exact Hq | apply Hk].
    + inversion H; subst. clear H.
      destruct q as [|d q]; simpl in Hq |- *.
      * inversion Hq; subst. eauto.
      * destruct (assoc d es) as [y|] eqn:Ad; [|discriminate].
        rewrite (assoc_app_some d y es _ Ad).
        exists x. split; [exact Hq | apply Hk].
Qed.

(** What [mkdir -p] raises is [FileExistsError] or [NotADirectoryError]. *)
Lemma makedirs_raises_oserror p : forall n e,
  makedirs n p = Raise e -> isinstance e OSError = true.
Proof.
  induction p as [|c p IH]; intros n e H; simpl in H.
  - destruct n; inversion H; subst. reflexivity.
  - destruct n as [|s es]; [inversion H; subst; reflexivity|].
    destruct (assoc c es) as [n1|]; [|discriminate].
    destruct (makedirs n1 p) eqn:E1; [discriminate|].
    inversion H; subst. eapply IH; eauto.
Qed.

Lemma makedirs_blocked n p :
  creatable n p = false -> exists e, makedirs n p = Raise e.
Proof.
  intros H. destruct (makedirs n p) as [n'|e] eqn:E; [|eauto].
  assert (Hc : creatable n p = true) by (apply makedirs_creatable; eauto).
  congruence.
Qed.

(** ** More on strings and paths *)

Lemma rfind_absent c s : ~ In c s -> rfind c s = None.
Proof.
  induction s as [|x s IH]; simpl; [reflexivity|].
  intros H. rewrite IH by tauto.
  destruct (x =? c)%N eqn:E; [|reflexivity].
  apply N.eqb_eq in E. subst. tauto.
Qed.

Lemma rfind_last c a b : ~ In c b -> rfind c (a ++ c :: b) = Some (length a).
Proof.
  intros H. induction a as [|x a IH]; simpl.
  - rewrite (rfind_absent c b H), N.eqb_refl. reflexivity.
  - rewrite IH. reflexivity.
Qed.

Lemma firstn_length_app {A} (a b : list A) : firstn (length a) (a ++ b) = a.
Proof. induction a; simpl; congruence. Qed.

Lemma split_on_aux_absent sep cur s :
  ~ In sep s -> split_on_aux sep cur s = [rev cur ++ s].
Proof.
  revert cur. induction s as [|c s IH]; intros cur H; simpl.
  - rewrite app_nil_r. reflexivity.
  - destruct (c =? sep)%N eqn:E.
    + apply N.eqb_eq in E. subst. simpl in H. tauto.
    + rewrite IH by (simpl in H; tauto). simpl. rewrite <- app_assoc. reflexivity.
Qed.

(** A string without a slash, not empty and not a single dot, is a
    path of one component. *)
Lemma Path_of_str_component (s : str) :
  ~ In 47%N s -> s <> [] -> s <> [46%N] ->
  Path_of_str s = {| anchored := false; parts := [s] |}.
Proof.
  intros Hs Hn Hd. unfold Path_of_str, split_on.
  rewrite (split_on_aux_absent 47 [] s Hs). cbn [rev app filter].
  assert (E1 : is_nil s = false) by (destruct s; [congruence|reflexivity]).
  assert (E2 : Str.eqb s [46%N] = false).
  { destruct (Str.eqb s [46%N]) eqn:E; [apply eqb_eq in E; contradiction|reflexivity]. }
  rewrite E1, E2. cbn [negb andb]. f_equal.
  destruct s as [|c s]; [congruence|]. cbn [startswith].
  destruct (47 =? c)%N eqn:E; [|reflexivity].
  apply N.eqb_eq in E. subst. simpl in Hs. tauto.
Qed.

(** The stem of a name with a non-empty base and the extension [.docx]
    is the base. *)
Lemma stem_docx p base :
  name p = base ++ u ".docx" -> base <> [] -> stem p = base.
Proof.
  intros Hn Hb. unfold stem. rewrite Hn.
  change (u ".docx") with (46%N :: u "docx").
  rewrite rfind_last.
  2: { vm_compute. intros H. repeat (destruct H as [H|H]; [discriminate|]). exact H. }
  rewrite firstn_length_app, length_app.
  assert (Hl : (0 < length base)%nat) by (destruct base; [congruence|simpl; lia]).
  apply Nat.ltb_lt in Hl. rewrite Hl. simpl length.
  assert (Hl2 : (length base <? length base + 5 - 1)%nat = true)
    by (apply Nat.ltb_lt; lia).
  rewrite Hl2. reflexivity.
Qed.

(** ** The constructor, again *)

(** X2.  Making the converter object destroys nothing: every path that
    was a file is the same file afterwards, every directory is still a
    directory, and the working directory is the same. *)
Theorem init_keeps_files i o w self w1 :
  Word2Markdown_init i o w = (Ret self, w1) ->
  (forall q sz, stat_in (sys w) q = Some (File sz) ->
                stat_in (sys w1) q = Some (File sz))
  /\ (forall q sz es, stat_in (sys w) q = Some (Dir sz es) ->
                      exists es', stat_in (sys w1) q = Some (Dir sz es'))
  /\ cwd (sys w1) = cwd (sys w).
Proof.
  rewrite init_run.
  destruct (makedirs (root (sys w)) (abs_parts (sys w) (Path_of_str o)))
    as [r|e] eqn:Hr; intros H; inversion H; subst. clear H.
  unfold stat_in. cbn.
  split; [|split; [|reflexivity]].
  - intros q sz Hq. destruct (makedirs_keeps _ _ _ Hr _ _ Hq) as [x' [Hl ->]].
    exact Hl.
  - intros q sz es Hq. destruct (makedirs_keeps _ _ _ Hr _ _ Hq) as [x' [Hl [es' ->]]].
    eauto.
Qed.

(** ** Discovery, again *)

Lemma abs_parts_make_child s p nm :
  abs_parts s (make_child p nm) = abs_parts s p ++ [nm].
Proof.
  unfold abs_parts, make_child. cbn. destruct (anchored p); [reflexivity|].
  apply app_assoc.
Qed.

(** X5.  [find_word_files] only reads: it leaves the file system and
    the working directory as they were and starts no subprocess.  Every
    path it returns is an entry of the input directory that exists and
    whose name ends with [.docx]. *)
Theorem find_word_files_read_only self w files w0 :
  find_word_files self w = (Ret files, w0) ->
  root (sys w0) = root (sys w)
  /\ cwd (sys w0) = cwd (sys w)
  /\ spawned (sys w0) = spawned (sys w)
  /\ Forall (fun f => exists base x,
                        f = make_child (input_dir self) (base ++ u ".docx")
                        /\ stat_in (sys w0) f = Some x) files.
Proof.
  intros H. destruct (find_word_files_returns self w) as [fs [w' [E [Hc [Hr Hs]]]]].
  rewrite H in E. inversion E; subst fs w'. clear E.
  repeat split; try assumption.
  destruct (find_word_files_run self w) as [c' E]. rewrite H in E.
  destruct (stat_in (sys w) (input_dir self)) as [[sz|sz es]|] eqn:Hst;
    inversion E; subst; try constructor.
  apply Forall_forall. intros f Hf.
  apply in_map_iff in Hf. destruct Hf as [nm [<- Hnm]].
  apply filter_In in Hnm. destruct Hnm as [Hin Hm].
  rewrite glob_pattern_docx in Hm. apply endswith_iff in Hm.
  destruct Hm as [base ->].
  destruct (assoc_in _ _ Hin) as [x Hx].
  exists base, x. split; [reflexivity|].
  unfold stat_in in *. cbn [sys root log cwd].
  rewrite (abs_parts_cwd _ (sys w)) by reflexivity.
  rewrite abs_parts_make_child, lookup_app, Hst. simpl. rewrite Hx. reflexivity.
Qed.

(** X6.  An input path that exists but is a regular file is listed as
    if it were empty: [find_word_files] returns no file, raises nothing
    and leaves the system untouched. *)
Theorem find_word_files_on_file self w sz :
  stat_in (sys w) (input_dir self) = Some (File sz) ->
  exists w0, find_word_files self w = (Ret [], w0) /\ sys w0 = sys w.
Proof.
  intros H. destruct (find_word_files_run self w) as [c' E].
  rewrite H in E. rewrite E. eauto.
Qed.

(** ** The output path *)

Lemma md_name_component base :
  ~ In 47%N base ->
  Path_of_str (base ++ u ".md")
  = {| anchored := false; parts := [base ++ u ".md"] |}.
Proof.
  intros Hb. apply Path_of_str_component.
  - intros H. apply in_app_or in H. destruct H as [H|H]; [tauto|].
    vm_compute in H. repeat (destruct H as [H|H]; [discriminate|]). exact H.
  - intros H. apply app_eq_nil in H. destruct H as [_ H]. discriminate H.
  - intros H. apply (f_equal (@length N)) in H. rewrite length_app in H.
    simpl in H. lia.
Qed.

(** X7.  The output of [convert_file] for an input named
    [<base>.docx], with a non-empty base, is [<base>.md] directly under
    the output directory: the name is kept and only the extension
    changes.  An input named just [.docx] has no extension to change
    and gives [.docx.md]. *)
Theorem markdown_file_of_docx self word_file base :
  name word_file = base ++ u ".docx" ->
  ~ In 47%N base ->
  (base <> [] ->
   markdown_file_of self word_file = make_child (output_dir self) (base ++ u ".md")
   /\ name (markdown_file_of self word_file) = base ++ u ".md")
  /\ (base = [] ->
      markdown_file_of self word_file
      = make_child (output_dir self) (u ".docx.md")).
Proof.
  intros Hn Hs. split.
  - intros Hb. unfold markdown_file_of, truediv.
    rewrite (stem_docx _ _ Hn Hb), (md_name_component base Hs). cbn.
    split; [reflexivity|]. unfold name. cbn. apply last_last.
  - intros ->. unfold markdown_file_of, truediv, stem. simpl in Hn. rewrite Hn.
    vm_compute rfind. cbn. reflexivity.
Qed.

(** X8.  Among inputs named [<base>.docx] with a base that is not
    empty, equal output paths mean equal names, so that different names
    give different outputs.  The name [.docx] is outside: it shares its
    output with [.docx.docx]. *)
Theorem markdown_file_of_injective self :
  (forall f1 f2 b1 b2,
      name f1 = b1 ++ u ".docx" -> name f2 = b2 ++ u ".docx" ->
      b1 <> [] -> b2 <> [] -> ~ In 47%N b1 -> ~ In 47%N b2 ->
      markdown_file_of self f1 = markdown_file_of self f2 ->
      name f1 = name f2)
  /\ (forall f1 f2,
        name f1 = u ".docx" -> name f2 = u ".docx.docx" ->
        markdown_file_of self f1 = markdown_file_of self f2).
Proof.
  split.
  - intros f1 f2 b1 b2 H1 H2 N1 N2 S1 S2 E.
    unfold markdown_file_of, truediv in E.
    rewrite (stem_docx _ _ H1 N1), (stem_docx _ _ H2 N2) in E.
    rewrite (md_name_component b1 S1), (md_name_component b2 S2) in E. cbn in E.
    inversion E as [E']. apply app_inj_tail in E'. destruct E' as [_ E'].
    apply app_inv_tail in E'. congruence.
  - intros f1 f2 H1 H2. unfold markdown_file_of.
    assert (E1 : stem f1 = u ".docx") by (unfold stem; rewrite H1; reflexivity).
    assert (E2 : stem f2 = u ".docx").
    { apply stem_docx; [rewrite H2; reflexivity | discriminate]. }
    rewrite E1, E2. reflexivity.
Qed.

Section More.

Variable rp : Process.

(** ** One conversion, again *)

(** X14.  The flag and the message of a result agree: the message
    starts with the success text exactly when the flag is true, and a
    failure message starts with one of the four failure texts. *)
Theorem convert_file_message_agrees self word_file w b msg w' :
  convert_file rp self word_file w = (Ret (b, msg), w') ->
  startswith (u "转换成功: ") msg = b
  /\ (b = false ->
      startswith (u "输出文件为空: ") msg
      || startswith (u "转换失败: ") msg
      || startswith (u "转换超时（60秒）") msg
      || startswith (u "转换异常: ") msg = true).
Proof.
  destruct (rp (sys w) (convert_cmd self word_file (sys w)) (convert_wd self) 60%N)
    as [o r'] eqn:E.
  destruct (convert_file_run rp self word_file w o r' E) as [c' ->].
  generalize (name (markdown_file_of self word_file)). intros nm.
  destruct o as [r|e].
  - destruct (returncode r =? 0)%Z.
    + destruct (stat_in _ _) as [n|]; [destruct (0 <? size_of n)%N|];
        intros H; inversion H; subst; split; try reflexivity; discriminate.
    + generalize (if negb (is_nil (stderr r)) then strip (stderr r) else u "未知错误").
      intros em H; inversion H; subst; split; reflexivity.
  - destruct (isinstance e TimeoutExpired).
    + intros H; inversion H; subst; split; reflexivity.
    + destruct (isinstance e Exception); intros H; inversion H; subst.
      split; reflexivity.
Qed.

(** ** The batch, again *)

(** X11.  When [convert_all] returns, three things say the same: the
    failure count is zero, the list of errors is empty, and the success
    count is the number of discovered files. *)
Theorem convert_all_no_failure self w files w0 sc fc errs w' :
  find_word_files self w = (Ret files, w0) ->
  convert_all rp self w = (Ret (sc, fc, errs), w') ->
  (fc = 0%N <-> errs = [])
  /\ (fc = 0%N <-> sc = N.of_nat (length files)).
Proof.
  intros Hf Hc.
  destruct (convert_all_returns rp _ _ _ _ _ _ _ _ Hf Hc)
    as [rs [_ [L [Hs [Hfc He]]]]].
  pose proof (succeeded_failed_length (combine files rs)) as Hsum.
  rewrite length_combine, L, Nat.min_id in Hsum.
  subst sc fc errs. split; split; intros H.
  - destruct (filter failed (combine files rs)); [reflexivity|discriminate].
  - apply map_eq_nil in H. rewrite H. reflexivity.
  - f_equal. lia.
  - apply Nat2N.inj in H. f_equal. lia.
Qed.

(** ** The program, again *)

(** X13.  [main] never returns to its caller: every run ends in
    [sys.exit] or in an exception that nothing handles. *)
Theorem main_never_returns args w :
  exists e, fst (main rp args w) = Raise e.
Proof.
  pose proof (main_run rp args w) as H.
  destruct (Word2Markdown_init (input args) (output args) w) as [[self|e] w1].
  2: { rewrite H. eexists. reflexivity. }
  destruct H as [w1' [_ H]].
  destruct (check_pandoc rp self w1') as [[[|]|e] w2].
  - destruct (check args).
    + destruct H as [w' [_ ->]]. eexists. reflexivity.
    + destruct (convert_all rp self w2) as [[[[sc fc] errs]|e] w3].
      * destruct H as [w' [_ ->]]. eexists. reflexivity.
      * rewrite H. eexists. reflexivity.
  - destruct H as [w' [_ ->]]. eexists. reflexivity.
  - rewrite H. eexists. reflexivity.
Qed.


(** X3.  When a regular file is in the way of the output directory the
    program stops in the constructor: [main] ends in the [OSError] that
    [mkdir] raised, having printed nothing, started no subprocess and
    changed nothing in the file system. *)
Theorem main_blocked_output args w :
  creatable (root (sys w)) (abs_parts (sys w) (Path_of_str (output args))) = false ->
  exists e w',
    main rp args w = (Raise e, w')
    /\ isinstance e OSError = true
    /\ root (sys w') = root (sys w)
    /\ events (sys w') = events (sys w) ++ [EvMkdir (Path_of_str (output args))]
    /\ console w' = console w.
Proof.
  intros Hb. destruct (makedirs_blocked _ _ Hb) as [e He].
  pose proof (main_run rp args w) as H. rewrite init_run, He in H.
  rewrite H. do 2 eexists. split; [reflexivity|].
  split; [eapply makedirs_raises_oserror; eauto|].
  repeat split.
Qed.

(** X4.  A version probe that exits with zero but prints fewer than two
    words makes [check_pandoc] raise [IndexError]: the exception is not
    one the method handles, and [main] ends in it with the probe as its
    only subprocess. *)
Theorem check_pandoc_short_output self w r r' :
  rp (sys w) VERSION_PROBE None 5%N = (Completed r, r') ->
  returncode r = 0%Z ->
  (length (split (stdout r)) < 2)%nat ->
  let e := Exc IndexError (u "list index out of range") in
  fst (check_pandoc rp self w) = Raise e
  /\ forall args w0,
       Word2Markdown_init (input args) (output args) w0 = (Ret self, w) ->
       fst (main rp args w0) = Raise e
       /\ spawned (sys (snd (main rp args w0)))
          = spawned (sys w0) ++ [EvSpawn VERSION_PROBE None 5].
Proof.
  intros Hrp Hrc Hlen e.
  destruct (check_pandoc_run rp self w _ r' Hrp) as [c' E].
  apply Z.eqb_eq in Hrc. rewrite Hrc in E.
  assert (Hn : nth_error (split (stdout r)) 1 = None)
    by (apply nth_error_None; lia).
  rewrite Hn in E. split; [rewrite E; reflexivity|].
  intros args w0 Hi.
  pose proof (main_run rp args w0) as H. rewrite Hi in H.
  destruct H as [w1' [Hs1 H]].
  destruct (blind_run _ w w1' _ _ (blind_check_pandoc rp self) Hs1 E)
    as [w2' [Hc' Hs2]].
  rewrite Hc' in H. rewrite H. cbn [fst snd]. split; [reflexivity|].
  pose proof (init_events (input args) (output args) w0) as He.
  rewrite Hi in He. cbn [snd] in He.
  rewrite Hs2. cbn [sys]. unfold spawned. cbn [events with_root log].
  rewrite He, !filter_app. cbn [filter is_spawn].
  rewrite app_nil_r. reflexivity.
Qed.

(** X15.  An interrupt is not an error: when the conversion of the
    first discovered file ends in an exception that is not an instance
    of [Exception], [convert_all] ends in that exception too, and no
    later file is attempted. *)
Theorem convert_all_interrupted self w f rest w0 e r' :
  find_word_files self w = (Ret (f :: rest), w0) ->
  rp (sys w0) (convert_cmd self f (sys w0)) (convert_wd self) 60%N = (Failed e, r') ->
  isinstance e Exception = false ->
  fst (convert_all rp self w) = Raise e
  /\ events (sys (snd (convert_all rp self w)))
     = events (sys w0) ++ [convert_event self (sys w0) f].
Proof.
  intros Hf Hrp He.
  destruct (convert_all_run rp self w _ w0 Hf) as [Hv Hs]. rewrite Hv, Hs.
  pose proof (convert_file_passes_interrupt rp self f w0 e r' Hrp He) as Hi.
  pose proof (convert_file_sys rp self f w0) as Hsys.
  cbn [convert_each]. unfold bind.
  destruct (convert_file rp self f w0) as [[r|e0] w1]; cbn [fst snd] in *;
    [discriminate|].
  inversion Hi; subst. rewrite Hsys. split; reflexivity.
Qed.

End More.

(** ** The further properties at concrete inputs *)

(** X2 where [site/docs] is made beside an input file. *)
Lemma init_keeps_files_witness :
  exists self w1,
    Word2Markdown_init (u "input") (u "site/docs") report_world = (Ret self, w1)
    /\ stat_in (sys w1) report_docx = Some (File 2048).
Proof.
  pose (r0 := Word2Markdown_init (u "input") (u "site/docs") report_world).
  assert (E0 : r0 = (Ret {| input_dir := Path_of_str (u "input");
                           output_dir := Path_of_str (u "site/docs") |}, snd r0))
    by (vm_compute; reflexivity).
  destruct (init_keeps_files _ _ _ _ _ E0) as [H _].
  do 2 eexists. split; [exact E0|].
  apply H. vm_compute. reflexivity.
Defined.

(** X3 where [out] is a regular file. *)
Lemma main_blocked_output_witness :
  exists e w',
    main terse_pandoc (args_io false) blocked_world = (Raise e, w')
    /\ isinstance e OSError = true
    /\ root (sys w') = root (sys blocked_world).
Proof.
  assert (Hb : creatable (root (sys blocked_world))
                 (abs_parts (sys blocked_world)
                    (Path_of_str (output (args_io false)))) = false)
    by (vm_compute; reflexivity).
  destruct (main_blocked_output terse_pandoc (args_io false) blocked_world Hb)
    as [e [w' [Hm [He [Hr _]]]]].
  exists e, w'. repeat split; assumption.
Defined.

(** X4 with a probe that prints one word. *)
Lemma check_pandoc_short_output_witness :
  fst (check_pandoc terse_pandoc converter_io report_world)
  = Raise (Exc IndexError (u "list index out of range")).
Proof.
  assert (Hl : (length (split (stdout (mkCompleted 0 (u "pandoc") []))) < 2)%nat)
    by (vm_compute; lia).
  exact (proj1 (check_pandoc_short_output terse_pandoc converter_io report_world
                  (mkCompleted 0 (u "pandoc") []) (root (sys report_world))
                  eq_refl eq_refl Hl)).
Defined.

(** X5 on the directory with [a.docx], [b.txt], [c.DOCX] and [sub/x.docx]. *)
Lemma find_word_files_read_only_witness :
  exists files w0,
    find_word_files converter_io mixed_world = (Ret files, w0)
    /\ root (sys w0) = root (sys mixed_world)
    /\ spawned (sys w0) = [].
Proof.
  pose (r0 := find_word_files converter_io mixed_world).
  assert (E0 : r0 = (Ret [make_child (input_dir converter_io) (u "a.docx")], snd r0))
    by (vm_compute; reflexivity).
  destruct (find_word_files_read_only _ _ _ _ E0) as [Hr [_ [Hs _]]].
  do 2 eexists. split; [exact E0|]. split; [exact Hr|].
  rewrite Hs. reflexivity.
Defined.

(** X6 where [input] is a regular file. *)
Lemma find_word_files_on_file_witness :
  exists w0,
    find_word_files converter_io input_file_world = (Ret [], w0)
    /\ sys w0 = sys input_file_world.
Proof.
  assert (E : stat_in (sys input_file_world) (input_dir converter_io)
              = Some (File 3)) by (vm_compute; reflexivity).
  exact (find_word_files_on_file converter_io input_file_world 3 E).
Defined.

(** X7 on [report.docx]. *)
Lemma markdown_file_of_docx_witness :
  markdown_file_of converter_io report_docx
  = make_child (output_dir converter_io) (u "report.md").
Proof.
  assert (Hn : name report_docx = u "report" ++ u ".docx")
    by (vm_compute; reflexivity).
  assert (Hs : ~ In 47%N (u "report")).
  { vm_compute. intros H. repeat (destruct H as [H|H]; [discriminate|]). exact H. }
  assert (Hb : u "report" <> []) by discriminate.
  destruct (markdown_file_of_docx converter_io report_docx (u "report") Hn Hs)
    as [H _].
  destruct (H Hb) as [E _]. rewrite E. vm_compute. reflexivity.
Defined.

(** X8 on two files called [report.docx] in different directories. *)
Lemma markdown_file_of_injective_witness :
  name report_docx = name (Path_of_str (u "archive/report.docx")).
Proof.
  assert (H1 : name report_docx = u "report" ++ u ".docx")
    by (vm_compute; reflexivity).
  assert (H2 : name (Path_of_str (u "archive/report.docx")) = u "report" ++ u ".docx")
    by (vm_compute; reflexivity).
  assert (Hs : ~ In 47%N (u "report")).
  { vm_compute. intros H. repeat (destruct H as [H|H]; [discriminate|]). exact H. }
  assert (Hb : u "report" <> []) by discriminate.
  assert (E : markdown_file_of converter_io report_docx
              = markdown_file_of converter_io (Path_of_str (u "archive/report.docx")))
    by (vm_compute; reflexivity).
  exact (proj1 (markdown_file_of_injective converter_io) _ _ _ _ H1 H2 Hb Hb Hs Hs E).
Defined.

(** X11 on a batch with one failure. *)
Lemma convert_all_no_failure_witness :
  let rp := failing_pandoc (u "bad format") in
  exists sc fc errs w',
    convert_all rp converter_io report_world = (Ret (sc, fc, errs), w')
    /\ (fc = 0%N <-> errs = []).
Proof.
  intros rp.
  pose (r0 := find_word_files converter_io report_world).
  assert (E0 : r0 = (Ret [report_docx], snd r0)) by (vm_compute; reflexivity).
  pose (r1 := convert_all rp converter_io report_world).
  assert (E1 : r1 = (Ret (0%N, 1%N, [u "report.docx: 转换失败: bad format"]), snd r1))
    by (vm_compute; reflexivity).
  do 4 eexists. split; [exact E1|].
  exact (proj1 (convert_all_no_failure rp _ _ _ _ _ _ _ _ E0 E1)).
Defined.


(** X14 on a failed conversion. *)
Lemma convert_file_message_agrees_witness :
  startswith (u "转换成功: ") (u "转换失败: bad format") = false.
Proof.
  pose (rp := failing_pandoc (u "bad format")).
  pose (r0 := convert_file rp converter_io report_docx report_world).
  assert (E0 : r0 = (Ret (false, u "转换失败: bad format"), snd r0))
    by (vm_compute; reflexivity).
  exact (proj1 (convert_file_message_agrees rp converter_io report_docx report_world
                  false (u "转换失败: bad format") (snd r0) E0)).
Defined.

(** X15 on an interrupted conversion. *)
Lemma convert_all_interrupted_witness :
  let e := Exc KeyboardInterrupt [] in
  fst (convert_all (broken_pandoc e) converter_io report_world) = Raise e.
Proof.
  intros e.
  pose (r0 := find_word_files converter_io report_world).
  assert (E0 : r0 = (Ret [report_docx], snd r0)) by (vm_compute; reflexivity).
  exact (proj1 (convert_all_interrupted (broken_pandoc e) converter_io report_world
                  report_docx [] (snd r0) e (root (sys (snd r0))) E0 eq_refl eq_refl)).
Defined.

(** * The script where library calls can fail *)


Lemma guarded_Some {A} faults c (m : M A) w e :
  faults w c = Some e -> guarded faults c m w = (Raise e, w).
Proof. unfold guarded. intros ->. reflexivity. Qed.

(** A library call leaves the system as it is, whether it fails or not,
    unless it is a scan, which is logged. *)
Lemma guarded_sys {A} faults c (m : M A) w :
  (forall w0, sys (snd (m w0)) = sys w0) ->
  sys (snd (guarded faults c m w)) = sys w.
Proof.
  intros H. unfold guarded. destruct (faults w c); [reflexivity | apply H].
Qed.

Lemma bind_assoc {A B C} (m : M A) (f : A -> M B) (g : B -> M C) w :
  bind (bind m f) g w = bind m (fun x => bind (f x) g) w.
Proof. unfold bind. destruct (m w) as [[a|e] w']; reflexivity. Qed.

Lemma bind_ext {A B} (m : M A) (k1 k2 : A -> M B) w :
  (forall a w', k1 a w' = k2 a w') -> bind m k1 w = bind m k2 w.
Proof. intros H. unfold bind. destruct (m w) as [[a|e] w']; auto. Qed.

Section FaultyProperties.

Variable faults : Faults.
Variable rp : Process.

(** With an environment in which no library call fails, the script is
    the one of the first part. *)
Lemma convert_file_no_faults self word_file :
  Faulty.convert_file no_faults rp self word_file = convert_file rp self word_file.
Proof. reflexivity. Qed.

Lemma find_word_files_no_faults self :
  Faulty.find_word_files no_faults self = find_word_files self.
Proof. reflexivity. Qed.

Lemma convert_all_no_faults self :
  Faulty.convert_all no_faults rp self = convert_all rp self.
Proof. reflexivity. Qed.

(** *** What leaves the system alone *)

Lemma quiet_ret {A} (a : A) : quiet (ret a).
Proof. intros w. reflexivity. Qed.

Lemma quiet_bind {A B} (m : M A) (k : A -> M B) :
  quiet m -> (forall a, quiet (k a)) -> quiet (bind m k).
Proof.
  intros Hm Hk w. unfold bind. specialize (Hm w).
  destruct (m w) as [[a|e] w1]; cbn [snd] in *; [|exact Hm].
  rewrite Hk. exact Hm.
Qed.

Lemma quiet_print line : quiet (Faulty.print faults line).
Proof. intros w. apply guarded_sys. reflexivity. Qed.

Lemma quiet_exists p : quiet (Faulty.exists_ faults p).
Proof. intros w. apply guarded_sys. reflexivity. Qed.

Lemma quiet_absolute p : quiet (Faulty.absolute faults p).
Proof. intros w. apply guarded_sys. reflexivity. Qed.

Lemma quiet_stat_st_size p : quiet (Faulty.stat_st_size faults p).
Proof.
  intros w. apply guarded_sys. intros w0. unfold stat_st_size.
  destruct (stat_in (sys w0) p); reflexivity.
Qed.

Lemma quiet_try {A} (body : M A) hs :
  quiet body -> Forall (fun c => forall e, quiet (snd c e)) hs ->
  quiet (try_ body hs).
Proof.
  intros Hb Hh w. unfold try_. specialize (Hb w).
  destruct (body w) as [[a|e] w1]; cbn [snd] in *; [exact Hb|].
  rewrite <- Hb. clear Hb. induction Hh as [|[cs h] hs Hc _ IH]; simpl.
  - reflexivity.
  - destruct (existsb (isinstance e) cs); [apply Hc | exact IH].
Qed.

Lemma quiet_handlers :
  Forall (fun c : except_clause (bool * str) => forall e, quiet (snd c e))
         Faulty.handlers.
Proof. repeat constructor. Qed.

Ltac quiet_tac :=
  repeat first
    [ apply quiet_ret | apply quiet_print | apply quiet_exists
    | apply quiet_absolute | apply quiet_stat_st_size
    | apply quiet_bind; [|intros]
    | match goal with
      | |- quiet (if ?b then _ else _) => destruct b
      | |- quiet (match ?x with _ => _ end) => destruct x
      end ].

Lemma quiet_before_try self word_file :
  quiet (Faulty.before_try faults self word_file).
Proof. unfold Faulty.before_try. quiet_tac. Qed.

Lemma subprocess_run_sys args wd t w :
  sys (snd (subprocess_run rp args wd t w)) =
  with_root (snd (rp (sys w) args wd t)) (log (EvSpawn args wd t) (sys w)).
Proof.
  unfold subprocess_run. destruct (rp (sys w) args wd t) as [[r|e] r']; reflexivity.
Qed.

(** Inside the [try] the system changes by the one subprocess, or not at
    all when the conversion cannot even be announced. *)
Lemma attempt_effect self word_file cmd w :
  let wd := Some (str_of_Path (output_dir self)) in
  let line := u "  🔄 转换中: " ++ name word_file ++ u " -> "
              ++ name (markdown_file_of self word_file) in
  sys (snd (Faulty.attempt faults rp self word_file cmd w)) =
  match faults w (CallPrint line) with
  | Some _ => sys w
  | None => with_root (snd (rp (sys w) cmd wd 60%N))
                      (log (EvSpawn cmd wd 60) (sys w))
  end.
Proof.
  intros wd line. unfold Faulty.attempt. cbv zeta. fold line.
  unfold bind at 1. unfold Faulty.print at 1, guarded.
  destruct (faults w (CallPrint line)); [reflexivity|].
  unfold print at 1. fold wd.
  set (w1 := {| sys := sys w; console := console w ++ [line] |}).
  pose proof (subprocess_run_sys cmd wd 60%N w1) as Hs.
  destruct (subprocess_run rp cmd wd 60 w1) as [[r|e] w2] eqn:E2; cbn [snd] in Hs.
  2: { rewrite (bind_Raise _ _ _ _ _ E2). exact Hs. }
  rewrite (bind_Ret _ _ _ _ _ E2). cbv beta.
  match goal with |- sys (snd (?m ?w0)) = _ =>
    assert (Hq : quiet m) by quiet_tac; exact (eq_trans (Hq w0) Hs) end.
Qed.

Lemma try_handlers_sys {A} (body : M A) hs w :
  Forall (fun c => forall e, quiet (snd c e)) hs ->
  sys (snd (try_ body hs w)) = sys (snd (body w)).
Proof.
  intros Hh. unfold try_.
  destruct (body w) as [[a|e] w1]; cbn [snd]; [reflexivity|].
  induction Hh as [|[cs h] hs Hc _ IH]; simpl.
  - reflexivity.
  - destruct (existsb (isinstance e) cs); [apply Hc | exact IH].
Qed.

(** [convert_file] is what precedes the [try], then the [try]. *)
Lemma convert_file_split self word_file w :
  Faulty.convert_file faults rp self word_file w =
  bind (Faulty.before_try faults self word_file)
       (fun cmd => try_ (Faulty.attempt faults rp self word_file cmd) Faulty.handlers)
       w.
Proof.
  unfold Faulty.convert_file, Faulty.before_try, Faulty.attempt, Faulty.handlers.
  rewrite bind_assoc. apply bind_ext. intros ex w1.
  rewrite bind_assoc. apply bind_ext. intros _ w2.
  rewrite bind_assoc. apply bind_ext. intros a w3.
  rewrite bind_assoc. apply bind_ext. intros b w4.
  reflexivity.
Qed.

(** What precedes the [try] gives the command line of the two absolute
    paths, when it gives anything. *)
Lemma before_try_cmd self word_file w cmd w1 :
  Faulty.before_try faults self word_file w = (Ret cmd, w1) ->
  cmd = convert_cmd self word_file (sys w) /\ sys w1 = sys w.
Proof.
  unfold Faulty.before_try, bind, Faulty.exists_, Faulty.print, Faulty.absolute,
    guarded, exists_, print, absolute, ret, convert_cmd.
  repeat (match goal with
          | |- context [match faults ?w0 ?c with _ => _ end] =>
              destruct (faults w0 c)
          | |- context [match stat_in ?a ?b with _ => _ end] =>
              destruct (stat_in a b)
          end; cbn [sys console]);
    intros H; inversion H; subst; split; reflexivity.
Qed.

(** When no library call fails in this state of the system, what
    precedes the [try] goes through. *)
Lemma before_try_no_fault self word_file w :
  (forall w0 c, sys w0 = sys w -> faults w0 c = None) ->
  exists w1,
    Faulty.before_try faults self word_file w
    = (Ret (convert_cmd self word_file (sys w)), w1)
    /\ sys w1 = sys w.
Proof.
  intros Hnf.
  unfold Faulty.before_try, bind, Faulty.exists_, Faulty.print, Faulty.absolute,
    guarded, exists_, print, absolute, ret, convert_cmd.
  rewrite Hnf by reflexivity.
  destruct (stat_in (sys w) (markdown_file_of self word_file));
    repeat (cbn [sys console]; rewrite Hnf by reflexivity);
    eexists; split; reflexivity.
Qed.


(** X9.  Whatever fails, [convert_file] starts at most one subprocess
    and does nothing else to the system: either the system is as it
    was, or the converter has been run once, with the fixed options, an
    output, an input, a working directory and a limit of 60 seconds, and
    the file system is the one it left.  When no library call fails
    before the converter is run, it is run. *)
Theorem convert_file_spawns_at_most_once self word_file w :
  let w' := snd (Faulty.convert_file faults rp self word_file w) in
  let cmd md_abs word_abs :=
    [u "pandoc"; u "-f"; u "docx"; u "-t"; u "markdown"; u "-o"; md_abs;
     u "--extract-media=./images"; u "--wrap=none"; u "--toc";
     u "--toc-depth=3"; word_abs] in
  let spawned_once :=
    exists md_abs word_abs wd,
      events (sys w')
      = events (sys w) ++ [EvSpawn (cmd md_abs word_abs) (Some wd) 60]
      /\ root (sys w') = snd (rp (sys w) (cmd md_abs word_abs) (Some wd) 60%N) in
  cwd (sys w') = cwd (sys w)
  /\ (sys w' = sys w \/ spawned_once)
  /\ ((forall w0 c, sys w0 = sys w -> faults w0 c = None) -> spawned_once).
Proof.
  intros w' cmd spawned_once. subst w'.
  assert (Hcase :
    sys (snd (Faulty.convert_file faults rp self word_file w)) = sys w
    \/ (sys (snd (Faulty.convert_file faults rp self word_file w))
        = with_root (snd (rp (sys w) (convert_cmd self word_file (sys w))
                            (convert_wd self) 60%N))
                    (log (convert_event self (sys w) word_file) (sys w)))).
  { rewrite convert_file_split. unfold bind.
    pose proof (quiet_before_try self word_file w) as Hq.
    destruct (Faulty.before_try faults self word_file w) as [[c|e] w1] eqn:Hb;
      cbn [snd] in Hq; [|left; exact Hq].
    destruct (before_try_cmd _ _ _ _ _ Hb) as [-> _].
    rewrite (try_handlers_sys _ _ _ quiet_handlers), attempt_effect.
    destruct (faults w1 _); [left; exact Hq|right]. rewrite Hq. reflexivity. }
  assert (Hsp : forall s',
    s' = with_root (snd (rp (sys w) (convert_cmd self word_file (sys w))
                           (convert_wd self) 60%N))
                   (log (convert_event self (sys w) word_file) (sys w)) ->
    exists md_abs word_abs wd,
      events s' = events (sys w) ++ [EvSpawn (cmd md_abs word_abs) (Some wd) 60]
      /\ root s' = snd (rp (sys w) (cmd md_abs word_abs) (Some wd) 60%N)).
  { intros s' ->. do 3 eexists. split; reflexivity. }
  split; [|split].
  - destruct Hcase as [-> | ->]; reflexivity.
  - destruct Hcase as [H | H]; [left; exact H | right; apply Hsp; exact H].
  - intros Hnf. apply Hsp. rewrite convert_file_split.
    destruct (before_try_no_fault self word_file w Hnf) as [w1 [Hb Hs]].
    rewrite (bind_Ret _ _ _ _ _ Hb).
    rewrite (try_handlers_sys _ _ _ quiet_handlers), attempt_effect.
    rewrite (Hnf w1 _ Hs), Hs. reflexivity.
Qed.

End FaultyProperties.

(** ** The script with failing library calls at concrete inputs *)



(** X9 where nothing fails. *)
Lemma convert_file_spawns_at_most_once_witness :
  exists ev,
    events (sys (snd (Faulty.convert_file no_faults (writing_pandoc 100)
                        converter_io report_docx report_world))) = [ev]
    /\ is_spawn ev = true.
Proof.
  destruct (convert_file_spawns_at_most_once no_faults (writing_pandoc 100)
              converter_io report_docx report_world) as [_ [_ H]].
  destruct (H (fun _ _ _ => eq_refl)) as [md_abs [word_abs [wd [He _]]]].
  eexists. split; [exact He | reflexivity].
Defined.
